(** * gallery-web: the gallery page and its drag/resize item

    A shallow embedding of [src/app/gallery/page.tsx] and of
    [src/components/ResizeableDraggableItem.tsx]:

    - [JS]: the JavaScript numbers and coercions the listeners use;
    - [Adapter]: the element, the [interact] configuration and the
      move/end listeners of [ResizableDraggableItem];
    - [Page]: the pending list, [onSelect], [removeOne], [onSave], the
      teardown effect, and the event loop of [GalleryPage].

    Numbers are exact: a finite JavaScript number is a rational kept in
    lowest terms (no rounding, no overflow), next to [NaN] and the two
    infinities. *)

From Stdlib Require Import ZArith QArith Qround Qminmax Lqa.
From stdpp Require Import list strings pretty gmap.

Open Scope Z_scope.

(* ================================================================== *)
(** ** JavaScript numbers *)
(* ================================================================== *)

Module JS.

Inductive number : Type :=
| NaN
| PInf
| NInf
| Fin (q : Q).

Definition num (z : Z) : number := Fin (inject_Z z).

(** [a + b] *)
Definition add (a b : number) : number :=
  match a, b with
  | NaN, _ | _, NaN => NaN
  | PInf, NInf | NInf, PInf => NaN
  | PInf, _ | _, PInf => PInf
  | NInf, _ | _, NInf => NInf
  | Fin p, Fin q => Fin (Qred (p + q))
  end.

(** Truthiness of a number: [NaN] and [0] are falsy. *)
Definition truthy (a : number) : bool :=
  match a with
  | NaN => false
  | PInf | NInf => true
  | Fin q => negb (Qeq_bool q 0)
  end.

(** [a || 0] *)
Definition or_zero (a : number) : number :=
  if truthy a then a else num 0.

(** [a ?? 0], where [None] is [undefined] or [null]. *)
Definition nullish_zero (a : option number) : number :=
  match a with
  | Some v => v
  | None => num 0
  end.

(** [a || 0] on a value that may be [undefined]. *)
Definition opt_or_zero (a : option number) : number :=
  match a with
  | Some v => or_zero v
  | None => num 0
  end.

(** [Math.max(a, b)] *)
Definition Math_max (a b : number) : number :=
  match a, b with
  | NaN, _ | _, NaN => NaN
  | PInf, _ | _, PInf => PInf
  | NInf, v | v, NInf => v
  | Fin p, Fin q => if Qle_bool p q then Fin q else Fin p
  end.

(** [Math.round(q)] on a finite number: the nearest integer, ties
    towards positive infinity. *)
Definition Math_round (q : Q) : Z := Qfloor (q + (1 # 2)).

Definition is_NaN (a : number) : bool :=
  match a with NaN => true | _ => false end.

Definition is_finite (a : number) : bool :=
  match a with Fin _ => true | _ => false end.

(** What a [data-*] attribute holds, by what [parseFloat] makes of it. *)
Inductive attr : Type :=
| AUndefined               (* the attribute is not set *)
| AEmpty                   (* the empty string *)
| ANumeric (n : number)    (* a string [parseFloat] reads as [n] *)
| AOther.                  (* any other string *)

(** [String(n)]: [parseFloat (String n)] is [n] again. *)
Definition String_ (n : number) : attr := ANumeric n.

(** [a || "0"] on a string that may be [undefined]. *)
Definition or_zero_string (a : attr) : attr :=
  match a with
  | AUndefined | AEmpty => ANumeric (num 0)
  | _ => a
  end.

Definition parseFloat (a : attr) : number :=
  match a with
  | ANumeric n => n
  | AUndefined | AEmpty | AOther => NaN
  end.

End JS.

(* ================================================================== *)
(** ** The drag/resize adapter: [ResizableDraggableItem] *)
(* ================================================================== *)

Module Adapter.
Import JS.

(** The object handed to [onChange]: [{ x, y, w, h }]. *)
Record Layout : Type := mkLayout {
  x : number;
  y : number;
  w : number;
  h : number;
}.

(** The [div] the effect works on: its inline size, its transform and
    the two [data-*] attributes. Inline lengths are in px. *)
Record Element : Type := mkElement {
  style_width : Q;
  style_height : Q;
  style_transform : Q * Q;
  dataset_x : attr;
  dataset_y : attr;
}.

(** The element as React creates it: nothing set yet. *)
Definition fresh : Element :=
  {| style_width := 0; style_height := 0; style_transform := (0%Q, 0%Q);
     dataset_x := AUndefined; dataset_y := AUndefined |}.

(** [el.style.width = v + "px"]: a declaration the browser cannot parse
    ("NaNpx", "Infinitypx", a negative length) is dropped and the old
    value stays. *)
Definition set_px (old : Q) (v : number) : Q :=
  match v with
  | Fin q => if Qle_bool 0 q then q else old
  | _ => old
  end.

(** [el.style.transform = `translate(${nx}px, ${ny}px)`] *)
Definition set_translate (old : Q * Q) (nx ny : number) : Q * Q :=
  match nx, ny with
  | Fin p, Fin q => (p, q)
  | _, _ => old
  end.

(** [el.clientWidth], [el.clientHeight]: the laid-out size, an integer.
    The element is sized by its inline width and height. Its class
    list names a border; the stylesheet is not part of the sources, and
    the client size is taken here as the inline size, with nothing of
    a border or padding taken off it. *)
Definition clientWidth (el : Element) : Z := Math_round (style_width el).
Definition clientHeight (el : Element) : Z := Math_round (style_height el).

(** [parseFloat(el.dataset.x || "0") || 0] *)
Definition read_coord (a : attr) : number :=
  or_zero (parseFloat (or_zero_string a)).

(** The events the listeners receive from [interact]. *)
Record DragEvent : Type := mkDrag {
  dx : option number;
  dy : option number;
}.

Record Rect : Type := mkRect {
  width : number;
  height : number;
}.

Record DeltaRect : Type := mkDeltaRect {
  left : option number;
  top : option number;
}.

(** [event.rect] is always there: the listener destructures it without
    a guard. [event.deltaRect] and its fields may be missing. *)
Record ResizeEvent : Type := mkResize {
  rect : Rect;
  deltaRect : option DeltaRect;
}.

(** [event.deltaRect?.left || 0] *)
Definition delta_left (ev : ResizeEvent) : number :=
  match deltaRect ev with
  | Some d => opt_or_zero (left d)
  | None => num 0
  end.

Definition delta_top (ev : ResizeEvent) : number :=
  match deltaRect ev with
  | Some d => opt_or_zero (top d)
  | None => num 0
  end.

(** [draggable.listeners.move]. The two source files have the same
    statements here (the component names [dx] and [dy] first). *)
Definition drag_move (ev : DragEvent) (el : Element) : Element :=
  let nx := add (read_coord (dataset_x el)) (nullish_zero (dx ev)) in
  let ny := add (read_coord (dataset_y el)) (nullish_zero (dy ev)) in
  {| style_width := style_width el;
     style_height := style_height el;
     style_transform := set_translate (style_transform el) nx ny;
     dataset_x := String_ nx;
     dataset_y := String_ ny |}.

(** [draggable.listeners.end] *)
Definition drag_end (el : Element) : Layout :=
  {| x := read_coord (dataset_x el);
     y := read_coord (dataset_y el);
     w := num (clientWidth el);
     h := num (clientHeight el) |}.

(** [resizable.listeners.move] *)
Definition resize_move (ev : ResizeEvent) (el : Element) : Element :=
  let width := Math_max (num 80) (width (rect ev)) in
  let height := Math_max (num 80) (height (rect ev)) in
  let nx := add (read_coord (dataset_x el)) (delta_left ev) in
  let ny := add (read_coord (dataset_y el)) (delta_top ev) in
  {| style_width := set_px (style_width el) width;
     style_height := set_px (style_height el) height;
     style_transform := set_translate (style_transform el) nx ny;
     dataset_x := String_ nx;
     dataset_y := String_ ny |}.

(** [resizable.listeners.end] *)
Definition resize_end (el : Element) : Layout :=
  {| x := read_coord (dataset_x el);
     y := read_coord (dataset_y el);
     w := num (clientWidth el);
     h := num (clientHeight el) |}.

(** The "init" lines of the effect. *)
Definition init (l : Layout) (el : Element) : Element :=
  {| style_width := set_px (style_width el) (w l);
     style_height := set_px (style_height el) (h l);
     style_transform := set_translate (style_transform el) (x l) (y l);
     dataset_x := String_ (x l);
     dataset_y := String_ (y l) |}.

(** A gesture: the element is initialised from the props, the move
    listener runs on every event delivered, the end listener reports
    once. *)
Definition drag_gesture (l : Layout) (evs : list DragEvent) : Layout :=
  drag_end (fold_left (fun el ev => drag_move ev el) evs (init l fresh)).

Definition resize_gesture (l : Layout) (evs : list ResizeEvent) : Layout :=
  resize_end (fold_left (fun el ev => resize_move ev el) evs (init l fresh)).

(** *** The [interact] configuration *)

Inductive Restriction : Type := parent.

Inductive Modifier : Type :=
| restrictEdges (outer : Restriction)
| restrictSize (min_width min_height : Z)
| snap_grid (grid_x grid_y range : Z).

Record ActionOptions : Type := mkOptions {
  modifiers : list Modifier;
  inertia : bool;
}.

Record Interactable : Type := mkInteractable {
  draggable : ActionOptions;
  resizable : ActionOptions;
}.

(** [mods] of page.tsx *)
Definition mods (snap : bool) : list Modifier :=
  [restrictEdges parent; restrictSize 80 80]
  ++ (if snap then let step := 8 in [snap_grid step step step] else []).

(** [interact(ref.current).draggable(..).resizable(..)] in page.tsx *)
Definition page_item (snap : bool) : Interactable :=
  {| draggable := {| modifiers := mods snap; inertia := true |};
     resizable := {| modifiers := mods snap; inertia := true |} |}.

(** The same chain in components/ResizeableDraggableItem.tsx:
    [draggable] is given listeners only. *)
Definition component_item : Interactable :=
  {| draggable := {| modifiers := []; inertia := false |};
     resizable :=
       {| modifiers := [restrictEdges parent; restrictSize 80 80];
          inertia := true |} |}.

(** The parent's box. The item is absolutely positioned at the parent's
    origin, so its translation is its offset inside the parent. *)
Record Parent : Type := mkParent {
  parent_width : Q;
  parent_height : Q;
}.

Definition inside_parent (p : Parent) (l : Layout) : bool :=
  match x l, y l, w l, h l with
  | Fin lx, Fin ly, Fin lw, Fin lh =>
      Qle_bool 0 lx && Qle_bool 0 ly
      && Qle_bool (lx + lw) (parent_width p)
      && Qle_bool (ly + lh) (parent_height p)
  | _, _, _, _ => false
  end.

(** A number that is an integer multiple of [step]. *)
Definition multiple_of (step : Z) (a : number) : Prop :=
  match a with
  | Fin q => exists k : Z, (q == inject_Z (step * k))%Q
  | _ => False
  end.

(** The effect of [ResizableDraggableItem] in page.tsx for the props
    [snap] and [x], [y], [w], [h]: what [interact] is given, and the
    element after the "init" lines. [snap] goes into [mods] and nowhere
    else: the listeners are the ones above whatever it is. *)
Definition item_effect (snap : bool) (l : Layout) (el : Element)
    : Interactable * Element :=
  (page_item snap, init l el).

(** A gesture on the page's item under the setting [snap], for the
    moves [interact] delivers. *)
Definition page_drag (snap : bool) (l : Layout) (evs : list DragEvent)
    : Layout :=
  drag_end (fold_left (fun el ev => drag_move ev el) evs
              (item_effect snap l fresh).2).


(** A number that is an integer, and which one. *)
Definition whole (a : number) : option Z :=
  match a with
  | Fin q => if Qeq_bool q (inject_Z (Qfloor q)) then Some (Qfloor q) else None
  | _ => None
  end.

(** The deltas of a drag move when both are integers, a missing one
    counting as 0. *)
Definition whole_delta (ev : DragEvent) : option (Z * Z) :=
  match whole (nullish_zero (dx ev)), whole (nullish_zero (dy ev)) with
  | Some a, Some b => Some (a, b)
  | _, _ => None
  end.

Fixpoint whole_moves (evs : list DragEvent) : option (list (Z * Z)) :=
  match evs with
  | [] => Some []
  | ev :: evs' =>
      match whole_delta ev, whole_moves evs' with
      | Some d, Some ds => Some (d :: ds)
      | _, _ => None
      end
  end.

(** An integer a double holds exactly, and whose sums with other such
    integers are the doubles' sums as long as they stay in range:
    [Number.MAX_SAFE_INTEGER] is [2^53 - 1]. *)
Definition safe (z : Z) : Prop := Z.abs z <= 2 ^ 53 - 1.

(** Starting from [a], every delta and every sum along the way is
    safe. *)
Fixpoint sums_safe (a : Z) (ds : list Z) : Prop :=
  safe a
  /\ match ds with
     | [] => True
     | d :: ds' => safe d /\ sums_safe (a + d) ds'
     end.

Definition total (ds : list Z) : Z := fold_right Z.add 0 ds.

End Adapter.

(* ================================================================== *)
(** ** The browser and Firebase, as far as the page uses them *)
(* ================================================================== *)

Module Browser.

(** A selected file. [image] is what decoding it as an image gives:
    its width and height, or [None] when [img.onerror] fires. *)
Record File : Type := mkFile {
  name : string;
  type : string;
  image : option (Z * Z);
}.

(** The object-URL registry: URLs are numbered as they are created;
    [revoked] logs every [URL.revokeObjectURL] call in order. *)
Record Urls : Type := mkUrls {
  next_url : nat;
  revoked : list nat;
}.

Definition createObjectURL (b : Urls) : nat * Urls :=
  (next_url b, {| next_url := S (next_url b); revoked := revoked b |}).

Definition revokeObjectURL (u : nat) (b : Urls) : Urls :=
  {| next_url := next_url b; revoked := revoked b ++ [u] |}.

End Browser.

Module Firebase.
Import JS.

(** An object written by [uploadBytes]. *)
Record Object : Type := mkObject {
  key : string;
  data : Browser.File;
  contentType : string;
}.

(** The fields [addDoc] is given ([createdAt] is the server's
    timestamp sentinel and carries no data of the page). *)
Record Doc : Type := mkDoc {
  url : string;
  fileName : string;
  x : number;
  y : number;
  w : number;
  h : number;
  caption : option string;
}.

Record Remote : Type := mkRemote {
  objects : list Object;
  documents : list Doc;
}.

(** What the outside world answers while one item is saved:
    [Date.now()], whether [uploadBytes] resolves, what [getDownloadURL]
    resolves to ([None]: it rejects), whether [addDoc] resolves. *)
Record Outcome : Type := mkOutcome {
  now : N;
  upload : bool;
  downloadURL : option string;
  write : bool;
}.

Definition succeeds (o : Outcome) : bool :=
  upload o && bool_decide (is_Some (downloadURL o)) && write o.

End Firebase.

(* ================================================================== *)
(** ** [GalleryPage] *)
(* ================================================================== *)

Module Page.
Import JS Browser Firebase.

Record PendingFile : Type := mkPending {
  file : File;
  previewUrl : nat;
  x : number;
  y : number;
  w : number;
  h : number;
  caption : option string;
}.

(** The React state of the page. *)
Record State : Type := mkState {
  pending : list PendingFile;
  isSaving : bool;
  snap : bool;
}.

(** An [onSave] call that is waiting on the network: the [pending]
    array it closed over and the items its loop has still to do. *)
Record Task : Type := mkTask {
  captured : list PendingFile;
  todo : list PendingFile;
}.

Record System : Type := mkSystem {
  page : State;
  urls : Urls;
  remote : Remote;
  (** the [pending] the teardown effect closed over *)
  teardown_pending : list PendingFile;
  running : list Task;
}.

(** [readImageDims]: loads the file through an object URL of its own. *)
Definition readImageDims (f : File) (b : Urls) : option (Z * Z) * Urls :=
  let (_, b') := createObjectURL b in (image f, b').

(** *** [onSelect] *)

Definition baseW : Z := 260.

(** [dims && dims.w > 0 ? Math.max(0.3, dims.h / dims.w) : 0.66] *)
Definition ratio (dims : option (Z * Z)) : Q :=
  match dims with
  | Some (dw, dh) =>
      if 0 <? dw then Qmax (3 # 10) (inject_Z dh / inject_Z dw)
      else (66 # 100)%Q
  | None => (66 # 100)%Q
  end.

(** [Math.max(160, Math.round(baseW * ratio))] *)
Definition baseH (dims : option (Z * Z)) : Z :=
  Z.max 160 (Math_round (inject_Z baseW * ratio dims)).

(** One turn of [for (const f of files)]. [pending_length] is the
    length of the [pending] the handler closed over. *)
Definition new_entry (pending_length : nat) (entries : list PendingFile)
    (f : File) (b : Urls) : PendingFile * Urls :=
  let (previewUrl, b1) := createObjectURL b in
  let (dims, b2) := readImageDims f b1 in
  let n := Z.of_nat (pending_length + length entries) in
  ({| file := f; previewUrl := previewUrl;
      w := num baseW; h := num (baseH dims);
      x := num (16 * n); y := num (16 * n);
      caption := None |}, b2).

Fixpoint select_loop (pending_length : nat) (files : list File)
    (entries : list PendingFile) (b : Urls) : list PendingFile * Urls :=
  match files with
  | [] => (entries, b)
  | f :: files' =>
      let (e, b') := new_entry pending_length entries f b in
      select_loop pending_length files' (entries ++ [e]) b'
  end.

Definition set_pending (ps : list PendingFile) (st : State) : State :=
  {| pending := ps; isSaving := isSaving st; snap := snap st |}.

Definition set_isSaving (v : bool) (st : State) : State :=
  {| pending := pending st; isSaving := v; snap := snap st |}.

Definition set_snap (v : bool) (st : State) : State :=
  {| pending := pending st; isSaving := isSaving st; snap := v |}.

Definition onSelect (files : list File) (s : System) : System :=
  match files with
  | [] => s
  | _ =>
      let (entries, b) :=
        select_loop (length (pending (page s))) files [] (urls s) in
      {| page := set_pending (pending (page s) ++ entries) (page s);
         urls := b;
         remote := remote s;
         teardown_pending := teardown_pending s;
         running := running s |}
  end.

(** *** [removeOne] *)

Definition removeOne (idx : nat) (s : System) : System :=
  match pending (page s) !! idx with
  | Some removed =>
      {| page := set_pending (delete idx (pending (page s))) (page s);
         urls := revokeObjectURL (previewUrl removed) (urls s);
         remote := remote s;
         teardown_pending := teardown_pending s;
         running := running s |}
  | None => s
  end.

(** *** [onChange] of the item rendered at [idx] *)

Definition layout_of (p : PendingFile) : Adapter.Layout :=
  {| Adapter.x := x p; Adapter.y := y p; Adapter.w := w p; Adapter.h := h p |}.

(** [{ ...copy[idx], ...next }] *)
Definition merge (p : PendingFile) (next : Adapter.Layout) : PendingFile :=
  {| file := file p; previewUrl := previewUrl p;
     x := Adapter.x next; y := Adapter.y next;
     w := Adapter.w next; h := Adapter.h next;
     caption := caption p |}.

(** [copy[idx] = { ...copy[idx], ...next }]. The handler belongs to the
    item rendered at [idx]; past the end of the array JavaScript would
    grow it with an entry that has no file, which is no [PendingFile]:
    [None]. *)
Definition onChange (idx : nat) (next : Adapter.Layout)
    (prev : list PendingFile) : option (list PendingFile) :=
  match prev !! idx with
  | Some p => Some (<[idx := merge p next]> prev)
  | None => None
  end.

Definition change (idx : nat) (next : Adapter.Layout) (s : System) : System :=
  match onChange idx next (pending (page s)) with
  | Some ps =>
      {| page := set_pending ps (page s);
         urls := urls s;
         remote := remote s;
         teardown_pending := teardown_pending s;
         running := running s |}
  | None => s
  end.

(** *** [onSave] *)

Inductive Result : Type := Fulfilled | Rejected.

Definition object_of (p : PendingFile) (o : Outcome) : Object :=
  {| key := "galleries/default/" +:+ pretty (now o) +:+ "_" +:+ name (file p);
     data := file p;
     contentType := type (file p) |}.

Definition doc_of (p : PendingFile) (url : string) : Doc :=
  {| Firebase.url := url;
     fileName := name (file p);
     Firebase.x := x p; Firebase.y := y p;
     Firebase.w := w p; Firebase.h := h p;
     Firebase.caption := caption p |}.

(** The body of [for (const p of pending)]: three awaits, each of which
    may reject. *)
Definition save_item (p : PendingFile) (o : Outcome) (r : Remote)
    : Remote * Result :=
  if upload o then
    let r1 := {| objects := objects r ++ [object_of p o];
                 documents := documents r |} in
    match downloadURL o with
    | Some url =>
        if write o then
          ({| objects := objects r1;
              documents := documents r1 ++ [doc_of p url] |}, Fulfilled)
        else (r1, Rejected)
    | None => (r1, Rejected)
    end
  else (r, Rejected).

(** The loop; [env i] is what the world answers for the item at index
    [i] of the array. *)
Fixpoint save_loop (ps : list PendingFile) (env : nat -> Outcome) (i : nat)
    (r : Remote) : Remote * Result :=
  match ps with
  | [] => (r, Fulfilled)
  | p :: ps' =>
      match save_item p (env i) r with
      | (r', Fulfilled) => save_loop ps' env (S i) r'
      | (r', Rejected) => (r', Rejected)
      end
  end.

(** [pending.forEach((p) => URL.revokeObjectURL(p.previewUrl))] *)
Definition revoke_all (ps : list PendingFile) (b : Urls) : Urls :=
  fold_left (fun b p => revokeObjectURL (previewUrl p) b) ps b.

(** [onSave] run from the click to the end with nothing in between. *)
Definition onSave (env : nat -> Outcome) (s : System) : System * Result :=
  match pending (page s) with
  | [] => (s, Fulfilled)
  | _ =>
      let saving := set_isSaving true (page s) in
      match save_loop (pending (page s)) env 0 (remote s) with
      | (r, Fulfilled) =>
          ({| page := set_isSaving false (set_pending [] saving);
              urls := revoke_all (pending (page s)) (urls s);
              remote := r;
              teardown_pending := teardown_pending s;
              running := running s |}, Fulfilled)
      | (r, Rejected) =>
          ({| page := set_isSaving false saving;
              urls := urls s;
              remote := r;
              teardown_pending := teardown_pending s;
              running := running s |}, Rejected)
      end
  end.

(** [canSave] and the label of the save button. *)
Definition canSave (st : State) : bool :=
  bool_decide (0 < length (pending st))%nat && negb (isSaving st).

Definition save_label (st : State) : string :=
  if isSaving st then "Saving…"
  else "Save" +:+
       (if bool_decide (length (pending st) = 0%nat) then EmptyString
        else " (" +:+ pretty (length (pending st)) +:+ ")").

(** *** The page as an event loop *)

Inductive Event : Type :=
| Select (files : list File)
| Remove (idx : nat)
| Drag (idx : nat) (evs : list Adapter.DragEvent)
| Resize (idx : nat) (evs : list Adapter.ResizeEvent)
| SetSnap (checked : bool)
| ClickSave
| Settle (t : nat) (o : Outcome).

(** The first render: [useState([])], [useState(false)],
    [useState(true)]; the teardown effect has no dependencies, so it
    keeps the [pending] of this render. *)
Definition mount (b : Urls) (r : Remote) : System :=
  let pending : list PendingFile := [] in
  {| page := {| pending := pending; isSaving := false; snap := true |};
     urls := b;
     remote := r;
     teardown_pending := pending;
     running := [] |}.

(** The cleanup of the teardown effect. *)
Definition unmount (s : System) : System :=
  {| page := page s;
     urls := revoke_all (teardown_pending s) (urls s);
     remote := remote s;
     teardown_pending := teardown_pending s;
     running := running s |}.

(** [onSave] up to its first await. *)
Definition start_save (s : System) : System :=
  match pending (page s) with
  | [] => s
  | ps =>
      {| page := set_isSaving true (page s);
         urls := urls s;
         remote := remote s;
         teardown_pending := teardown_pending s;
         running := running s ++ [{| captured := ps; todo := ps |}] |}
  end.

(** The awaits of the current item of task [t] settle as [o] says; the
    task goes on to its next await, or to the statements after the loop,
    or out through [finally]. *)
Definition settle (t : nat) (o : Outcome) (s : System) : System :=
  match running s !! t with
  | Some {| captured := cap; todo := p :: rest |} =>
      match save_item p o (remote s), rest with
      | (r, Fulfilled), _ :: _ =>
          {| page := page s;
             urls := urls s;
             remote := r;
             teardown_pending := teardown_pending s;
             running := <[t := {| captured := cap; todo := rest |}]> (running s) |}
      | (r, Fulfilled), [] =>
          {| page := set_isSaving false (set_pending [] (page s));
             urls := revoke_all cap (urls s);
             remote := r;
             teardown_pending := teardown_pending s;
             running := delete t (running s) |}
      | (r, Rejected), _ =>
          {| page := set_isSaving false (page s);
             urls := urls s;
             remote := r;
             teardown_pending := teardown_pending s;
             running := delete t (running s) |}
      end
  | _ => s
  end.

(** One event. A gesture reaches the item rendered at [idx]; the save
    button is [disabled={!canSave}], so a click gets through only when
    [canSave] holds. *)
Definition step (e : Event) (s : System) : System :=
  match e with
  | Select files => onSelect files s
  | Remove idx => removeOne idx s
  | Drag idx evs =>
      match pending (page s) !! idx with
      | Some p => change idx (Adapter.drag_gesture (layout_of p) evs) s
      | None => s
      end
  | Resize idx evs =>
      match pending (page s) !! idx with
      | Some p => change idx (Adapter.resize_gesture (layout_of p) evs) s
      | None => s
      end
  | SetSnap checked =>
      {| page := set_snap checked (page s);
         urls := urls s;
         remote := remote s;
         teardown_pending := teardown_pending s;
         running := running s |}
  | ClickSave => if canSave (page s) then start_save s else s
  | Settle t o => settle t o s
  end.

Definition run (es : list Event) (s : System) : System :=
  fold_left (fun s e => step e s) es s.

Inductive reachable : System -> Prop :=
| reachable_mount b r : reachable (mount b r)
| reachable_step e s : reachable s -> reachable (step e s).

(** *** Names for what the statements below talk about *)

(** The entry [onSelect] pushes for file [f] when [n] entries precede
    it and [u] is its object URL. *)
Definition seeded (n : nat) (u : nat) (f : File) : PendingFile :=
  {| file := f; previewUrl := u;
     x := num (16 * Z.of_nat n); y := num (16 * Z.of_nat n);
     w := num 260; h := num (baseH (image f));
     caption := None |}.

(** The object and the document the loop writes for the item at index
    [i] when the world answers [env]. *)
Definition object_at (env : nat -> Outcome) (i : nat) (p : PendingFile)
    : Object :=
  object_of p (env i).

(** Either no save is under way and the flag is down, or exactly one
    is, it still has an item to do, and the flag is up. *)
Definition one_save (s : System) : Prop :=
  (running s = [] /\ isSaving (page s) = false)
  \/ (exists task, running s = [task] /\ todo task <> []
                   /\ isSaving (page s) = true).

(** The click on the save button followed by the answers [env] gives
    for the items in turn. *)
Definition save_events (env : nat -> Outcome) (n : nat) : list Event :=
  ClickSave :: map (fun i => Settle 0 (env i)) (seq 0 n).

(** The preview URLs of the pending entries. *)
Definition handles (ps : list PendingFile) : list nat := previewUrl <$> ps.

(** The pending entries hold distinct object URLs, all of them created
    and none of them revoked; only created URLs were revoked, and the
    saves under way closed over created URLs. *)
Definition handles_ok (s : System) : Prop :=
  NoDup (handles (pending (page s)))
  /\ Forall (fun u => (u < next_url (urls s))%nat) (handles (pending (page s)))
  /\ Forall (fun u => u ∉ revoked (urls s)) (handles (pending (page s)))
  /\ Forall (fun u => (u < next_url (urls s))%nat) (revoked (urls s))
  /\ Forall (fun t => Forall (fun u => (u < next_url (urls s))%nat)
                        (handles (captured t)))
       (running s).

(** The [x], [y], [w], [h] of a document. *)
Definition layout_of_doc (d : Doc) : Adapter.Layout :=
  {| Adapter.x := Firebase.x d; Adapter.y := Firebase.y d;
     Adapter.w := Firebase.w d; Adapter.h := Firebase.h d |}.

Definition doc_at (env : nat -> Outcome) (i : nat) (p : PendingFile) : Doc :=
  doc_of p (default EmptyString (downloadURL (env i))).

(** An event other than the settling of a save's awaits. *)
Definition user_event (e : Event) : bool :=
  match e with
  | Settle _ _ => false
  | _ => true
  end.

(** A save of [length mids] items seen from the event loop: before the
    awaits of item [i] settle as [env (first + i)] says, the user does
    [mids !! i]. *)
Fixpoint interleaved (env : nat -> Outcome) (first : nat)
    (mids : list (list Event)) : list Event :=
  match mids with
  | [] => []
  | mid :: mids' =>
      mid ++ Settle 0 (env first) :: interleaved env (S first) mids'
  end.

(** A string of decimal digits, as [Date.now()] prints. *)
Definition is_digit (c : Ascii.ascii) : bool :=
  (48 <=? Ascii.nat_of_ascii c)%nat && (Ascii.nat_of_ascii c <=? 57)%nat.

Fixpoint all_digits (s : string) : bool :=
  match s with
  | EmptyString => true
  | String c s' => is_digit c && all_digits s'
  end.

(** An object URL at an even distance from [nb], the first URL the
    page creates: [onSelect] creates two URLs per file, the preview URL
    first, so these are the preview URLs and the ones in between are
    those [readImageDims] makes. *)
Definition preview_like (nb u : nat) : Prop := exists j, u = (nb + 2 * j)%nat.

(** Since the registry's revoke log was [old], only preview URLs were
    revoked, and every URL held by a pending entry or closed over by a
    running save is a preview URL. *)
Definition urls_accounted (nb : nat) (old : list nat) (s : System) : Prop :=
  preview_like nb (next_url (urls s))
  /\ (exists new, revoked (urls s) = old ++ new
                  /\ Forall (preview_like nb) new)
  /\ Forall (preview_like nb) (handles (pending (page s)))
  /\ Forall (fun t => Forall (preview_like nb) (handles (captured t)))
       (running s).

End Page.

(* ================================================================== *)
(** ** [ensureFirebase] *)
(* ================================================================== *)

Module App.

(** [firebaseConfig]: five values of the environment, each of which
    may be missing. *)
Record Config : Type := mkConfig {
  apiKey : option string;
  authDomain : option string;
  projectId : option string;
  storageBucket : option string;
  appId : option string;
}.

#[global] Instance Config_eq_dec : EqDecision Config.
Proof. solve_decision. Defined.

(** The name of the app [initializeApp] makes when it is given none,
    and the one [getFirestore()] and [getStorage()] look up. *)
Definition DEFAULT : string := "[DEFAULT]".

(** [initializeApp(config)] on the registry of apps, which is keyed by
    name: a default app with the same options is returned as it is, one
    with other options is a "duplicate-app" error ([None]). *)
Definition initializeApp (c : Config) (apps : gmap string Config)
    : option (gmap string Config) :=
  match apps !! DEFAULT with
  | None => Some (<[DEFAULT := c]> apps)
  | Some c' => if decide (c' = c) then Some apps else None
  end.

(** [getFirestore()], [getStorage()]: the default app, or a "no-app"
    error ([None]). *)
Definition getApp (apps : gmap string Config) : option Config :=
  apps !! DEFAULT.

(** [if (!getApps().length) initializeApp(firebaseConfig);
     return { db: getFirestore(), storage: getStorage() }]:
    the registry afterwards, and the app whose services are returned
    ([None]: the call throws). *)
Definition ensureFirebase (c : Config) (apps : gmap string Config)
    : gmap string Config * option Config :=
  if bool_decide (size apps = 0%nat) then
    match initializeApp c apps with
    | Some apps' => (apps', getApp apps')
    | None => (apps, None)
    end
  else (apps, getApp apps).

(** The registry after [n] calls. *)
Definition renders (c : Config) (n : nat) (apps : gmap string Config)
    : gmap string Config :=
  Nat.iter n (fun a => (ensureFirebase c a).1) apps.

End App.

(* ================================================================== *)
(** ** [cls] and what the page renders with it *)
(* ================================================================== *)

Module Markup.

(** An argument of [cls]: [string | false | null | undefined]. *)
Inductive ClassArg : Type :=
| Name (s : string)
| False_
| Null
| Undefined.

(** [Boolean(x)]: the empty string is falsy too. *)
Definition Boolean (a : ClassArg) : bool :=
  match a with
  | Name EmptyString => false
  | Name _ => true
  | _ => false
  end.

(** How [join] prints an element. *)
Definition text (a : ClassArg) : string :=
  match a with
  | Name s => s
  | False_ => "false"
  | Null | Undefined => EmptyString
  end.

(** [xs.join(sep)] *)
Fixpoint join (sep : string) (xs : list ClassArg) : string :=
  match xs with
  | [] => EmptyString
  | x :: xs' =>
      match xs' with
      | [] => text x
      | _ => text x +:+ sep +:+ join sep xs'
      end
  end.

(** [xs.filter(Boolean).join(" ")] *)
Definition cls (xs : list ClassArg) : string :=
  join " " (List.filter Boolean xs).

(** The [className] of the save button. *)
Definition save_button_class (st : Page.State) : string :=
  cls [Name "px-4 py-2 rounded-2xl border shadow";
       Name (if Page.canSave st then "hover:shadow-md"
             else "opacity-50 cursor-not-allowed")].

(** Two class strings put side by side. *)
Definition beside (a b : string) : string :=
  match a, b with
  | EmptyString, _ => b
  | _, EmptyString => a
  | _, _ => a +:+ " " +:+ b
  end.

End Markup.

(* ================================================================== *)
(** ** The saved items: snapshot handler and saved canvas *)
(* ================================================================== *)

Module Projection.
Import JS Firebase.

(** A field value of a document. *)
Inductive Value : Type :=
| VNumber (n : number)
| VString (s : string)
| VNull
| VTimestamp.

(** The object [addDoc] is given by [onSave]. *)
Definition fields_of (d : Doc) : gmap string Value :=
  <["url" := VString (url d)]>
  (<["fileName" := VString (fileName d)]>
  (<["x" := VNumber (x d)]>
  (<["y" := VNumber (y d)]>
  (<["w" := VNumber (w d)]>
  (<["h" := VNumber (h d)]>
  (<["caption" := match caption d with
                  | Some c => VString c
                  | None => VNull
                  end]>
  (<["createdAt" := VTimestamp]> ∅))))))).

(** [{ id: doc.id, ...doc.data() }]: the fields of the data come last
    and win. *)
Definition item_of (id : string) (data : gmap string Value)
    : gmap string Value :=
  data ∪ {["id" := VString id]}.

(** The snapshot callback: [list] is built from the snapshot alone and
    [setItems(list)] replaces the items. *)
Definition on_snapshot (snap : list (string * gmap string Value))
    (items : list (gmap string Value)) : list (gmap string Value) :=
  (fun d => item_of d.1 d.2) <$> snap.

(** [v || 0] on a field that may be missing. *)
Definition value_or_zero (v : option Value) : Value :=
  match v with
  | Some (VNumber n) => VNumber (or_zero n)
  | Some (VString EmptyString) => VNumber (num 0)
  | Some (VString s) => VString s
  | Some VTimestamp => VTimestamp
  | Some VNull | None => VNumber (num 0)
  end.

(** The [div] of a saved item: its key, its [style] and its image. *)
Record Box : Type := mkBox {
  box_key : option Value;
  box_width : option Value;
  box_height : option Value;
  box_translate : Value * Value;
  box_src : option Value;
}.

Definition saved_box (it : gmap string Value) : Box :=
  {| box_key := it !! "id";
     box_width := it !! "w";
     box_height := it !! "h";
     box_translate := (value_or_zero (it !! "x"), value_or_zero (it !! "y"));
     box_src := it !! "url" |}.

End Projection.

(* ================================================================== *)
(** ** The [Uploader] component *)
(* ================================================================== *)

Module Uploader.
Import JS Browser Firebase.

(** Its [PendingFile]: the image's own width and height, when they
    could be read. *)
Record PendingFile : Type := mkPending {
  file : File;
  previewUrl : nat;
  w : option Z;
  h : option Z;
}.

Module Store.

(** The fields its [addDoc] is given, [createdAt] apart. *)
Record Doc : Type := mkDoc {
  url : string;
  fileName : string;
  w : option Z;
  h : option Z;
}.

End Store.

(** The component's state, the two stores, and how often [onUploaded]
    was called. *)
Record System : Type := mkSystem {
  pending : list PendingFile;
  isSaving : bool;
  urls : Urls;
  objects : list Object;
  documents : list Store.Doc;
  uploaded : nat;
}.

(** One turn of [for (const f of files)]:
    [{ file: f, previewUrl, w: dims?.w, h: dims?.h }]. *)
Definition new_entry (f : File) (b : Urls) : PendingFile * Urls :=
  let (previewUrl, b1) := createObjectURL b in
  let (dims, b2) := Page.readImageDims f b1 in
  ({| file := f; previewUrl := previewUrl;
      w := fst <$> dims; h := snd <$> dims |}, b2).

Fixpoint select_loop (files : list File) (entries : list PendingFile)
    (b : Urls) : list PendingFile * Urls :=
  match files with
  | [] => (entries, b)
  | f :: files' =>
      let (e, b') := new_entry f b in
      select_loop files' (entries ++ [e]) b'
  end.

Definition onSelect (files : list File) (s : System) : System :=
  match files with
  | [] => s
  | _ =>
      let (entries, b) := select_loop files [] (urls s) in
      {| pending := pending s ++ entries;
         isSaving := isSaving s;
         urls := b;
         objects := objects s;
         documents := documents s;
         uploaded := uploaded s |}
  end.

Definition removeOne (idx : nat) (s : System) : System :=
  match pending s !! idx with
  | Some removed =>
      {| pending := delete idx (pending s);
         isSaving := isSaving s;
         urls := revokeObjectURL (previewUrl removed) (urls s);
         objects := objects s;
         documents := documents s;
         uploaded := uploaded s |}
  | None => s
  end.

Definition object_of (p : PendingFile) (o : Outcome) : Object :=
  {| key := "galleries/default/" +:+ pretty (now o) +:+ "_" +:+ name (file p);
     data := file p;
     contentType := type (file p) |}.

Definition doc_of (p : PendingFile) (url : string) : Store.Doc :=
  {| Store.url := url;
     Store.fileName := name (file p);
     Store.w := w p;
     Store.h := h p |}.

(** The body of [for (const p of pending)]. *)
Definition save_item (p : PendingFile) (o : Outcome)
    (objs : list Object) (docs : list Store.Doc)
    : list Object * list Store.Doc * Page.Result :=
  if upload o then
    let objs1 := objs ++ [object_of p o] in
    match downloadURL o with
    | Some url =>
        if write o then (objs1, docs ++ [doc_of p url], Page.Fulfilled)
        else (objs1, docs, Page.Rejected)
    | None => (objs1, docs, Page.Rejected)
    end
  else (objs, docs, Page.Rejected).

Fixpoint save_loop (ps : list PendingFile) (env : nat -> Outcome) (i : nat)
    (objs : list Object) (docs : list Store.Doc)
    : list Object * list Store.Doc * Page.Result :=
  match ps with
  | [] => (objs, docs, Page.Fulfilled)
  | p :: ps' =>
      match save_item p (env i) objs docs with
      | (objs', docs', Page.Fulfilled) => save_loop ps' env (S i) objs' docs'
      | (objs', docs', Page.Rejected) => (objs', docs', Page.Rejected)
      end
  end.

Definition revoke_all (ps : list PendingFile) (b : Urls) : Urls :=
  fold_left (fun b p => revokeObjectURL (previewUrl p) b) ps b.

(** [onSave], run from the click to the end; [onUploaded] tells
    whether the component was given the callback. *)
Definition onSave (onUploaded : bool) (env : nat -> Outcome) (s : System)
    : System * Page.Result :=
  match pending s with
  | [] => (s, Page.Fulfilled)
  | _ =>
      match save_loop (pending s) env 0 (objects s) (documents s) with
      | (objs, docs, Page.Fulfilled) =>
          ({| pending := [];
              isSaving := false;
              urls := revoke_all (pending s) (urls s);
              objects := objs;
              documents := docs;
              uploaded := if onUploaded then S (uploaded s) else uploaded s |},
           Page.Fulfilled)
      | (objs, docs, Page.Rejected) =>
          ({| pending := pending s;
              isSaving := false;
              urls := urls s;
              objects := objs;
              documents := docs;
              uploaded := uploaded s |}, Page.Rejected)
      end
  end.

(** What a document says about the file it was written for. *)
Definition written_for (p : PendingFile) (d : Store.Doc) : Prop :=
  Store.fileName d = name (file p) /\ Store.w d = w p /\ Store.h d = h p.

(** The entry pushed for file [f] when [u] is its object URL. *)
Definition measured (u : nat) (f : File) : PendingFile :=
  {| file := f; previewUrl := u;
     w := fst <$> image f; h := snd <$> image f |}.

End Uploader.

(* ================================================================== *)
(** ** Sample data *)
(* ================================================================== *)

Module Sample.
Import JS Browser Firebase Page.

Definition a_png : File := mkFile "a.png" "image/png" (Some (1200, 800)).
Definition b_png : File := mkFile "b.png" "image/png" None.
Definition c_png : File := mkFile "c.png" "image/png" (Some (1000, 100)).

Definition no_urls : Urls := {| next_url := 0; revoked := [] |}.
Definition empty_remote : Remote := {| objects := []; documents := [] |}.

(** The page after the three files were selected in one go. *)
Definition three : System :=
  step (Select [a_png; b_png; c_png]) (mount no_urls empty_remote).

(** The page after [a.png] alone was selected. *)
Definition one : System :=
  step (Select [a_png]) (mount no_urls empty_remote).

Definition ok (i : nat) : Outcome :=
  {| now := 1700000000000 + N.of_nat i; upload := true;
     downloadURL := Some ("https://storage/" +:+ pretty i); write := true |}.

(** The second upload is refused. *)
Definition second_fails (i : nat) : Outcome :=
  if Nat.eqb i 1
  then {| now := 1700000000001; upload := false;
          downloadURL := None; write := false |}
  else ok i.

End Sample.

(* ================================================================== *)
(** * Properties *)
(* ================================================================== *)

Section select_facts.
Import JS Browser Firebase Page.

Lemma new_entry_seeded pl entries f b :
  new_entry pl entries f b
  = (seeded (pl + length entries) (next_url b) f,
     {| next_url := S (S (next_url b)); revoked := revoked b |}).
Proof. reflexivity. Qed.

Lemma select_loop_closed pl files : forall entries b,
  select_loop pl files entries b
  = (entries ++ imap (fun k f => seeded (pl + length entries + k)
                                   (next_url b + 2 * k) f) files,
     {| next_url := next_url b + 2 * length files; revoked := revoked b |}).
Proof.
  induction files as [|f files IH]; intros entries b.
  - cbn. rewrite app_nil_r. destruct b as [n rv]; cbn.
    do 2 f_equal. lia.
  - cbn [select_loop]. rewrite new_entry_seeded, IH.
    rewrite imap_cons, <- app_assoc. cbn [app next_url revoked length].
    f_equal.
    + f_equal. f_equal.
      * f_equal; lia.
      * apply imap_ext. intros k g _. cbn. rewrite length_app. cbn.
        f_equal; lia.
    + f_equal. lia.
Qed.

Lemma onSelect_pending files s :
  pending (page (onSelect files s))
  = pending (page s)
    ++ imap (fun k f => seeded (length (pending (page s)) + k)
                          (next_url (urls s) + 2 * k) f) files.
Proof.
  unfold onSelect. destruct files as [|f files].
  - cbn. now rewrite app_nil_r.
  - rewrite select_loop_closed. cbn [page pending set_pending app length].
    f_equal. apply imap_ext. intros k g _. f_equal. lia.
Qed.

End select_facts.

Section height_facts.
Import JS Browser Firebase Page.

Lemma Math_round_below (q : Q) (n : Z) :
  (q + (1 # 2) < inject_Z n)%Q -> Math_round q < n.
Proof.
  intros H. unfold Math_round. rewrite Zlt_Qlt.
  eapply Qle_lt_trans; [apply Qfloor_le | exact H].
Qed.

Lemma div_below (dw dh a : Z) (b : positive) :
  0 < dw -> Z.pos b * dh < a * dw ->
  (inject_Z dh / inject_Z dw < a # b)%Q.
Proof.
  intros Hw H.
  apply Qlt_shift_div_r.
  - change (inject_Z 0 < inject_Z dw)%Q. rewrite <- Zlt_Qlt. exact Hw.
  - unfold Qlt, Qmult, inject_Z. cbn [Qnum Qden].
    rewrite Pos.mul_1_r. lia.
Qed.

Lemma baseH_at_least dims : 160 <= baseH dims.
Proof. unfold baseH. apply Z.le_max_l. Qed.

Lemma baseH_unreadable : baseH None = 172.
Proof. reflexivity. Qed.

Lemma baseH_no_width dw dh : dw <= 0 -> baseH (Some (dw, dh)) = 172.
Proof.
  intros H. unfold baseH, ratio.
  destruct (Z.ltb_spec 0 dw) as [H'|_]; [lia | reflexivity].
Qed.

Lemma baseH_readable dw dh :
  0 < dw ->
  baseH (Some (dw, dh))
  = Z.max 160 (Math_round (260 * Qmax (3 # 10) (inject_Z dh / inject_Z dw))).
Proof.
  intros H. unfold baseH, ratio.
  destruct (Z.ltb_spec 0 dw) as [_|H']; [reflexivity | lia].
Qed.

Lemma baseH_wide dw dh :
  0 < dw -> 520 * dh < 321 * dw -> baseH (Some (dw, dh)) = 160.
Proof.
  intros Hw H. rewrite baseH_readable by exact Hw.
  apply Z.max_l. apply Z.lt_succ_r. apply Math_round_below.
  pose proof (div_below dw dh 321 520 Hw H) as Hr.
  change (inject_Z (Z.succ 160)) with (161 # 1)%Q.
  remember (inject_Z dh / inject_Z dw)%Q as t eqn:Et. clear Et.
  destruct (Q.max_spec (3 # 10) t) as [[_ E]|[_ E]]; rewrite E; clear E; lra.
Qed.

Lemma true_ratio_below dw dh :
  0 < dw -> 520 * dh < 319 * dw ->
  Math_round (260 * (inject_Z dh / inject_Z dw)) < 160.
Proof.
  intros Hw H. apply Math_round_below.
  pose proof (div_below dw dh 319 520 Hw H) as Hr.
  change (inject_Z 160) with (160 # 1)%Q.
  remember (inject_Z dh / inject_Z dw)%Q as t eqn:Et. clear Et. lra.
Qed.

End height_facts.

Section save_facts.
Import JS Browser Firebase Page.

Lemma save_item_succeeds p o r :
  succeeds o = true ->
  save_item p o r
  = ({| objects := objects r ++ [object_of p o];
        documents := documents r
                     ++ [doc_of p (default EmptyString (downloadURL o))] |},
     Fulfilled).
Proof.
  unfold succeeds, save_item. intros H.
  apply andb_prop in H as [H Hw]. apply andb_prop in H as [Hu Hd].
  apply bool_decide_eq_true in Hd as [u Hd].
  rewrite Hu, Hd, Hw. reflexivity.
Qed.

Lemma save_item_fails p o r :
  succeeds o = false ->
  save_item p o r
  = ({| objects := objects r ++ (if upload o then [object_of p o] else []);
        documents := documents r |}, Rejected).
Proof.
  unfold succeeds, save_item. intros H. destruct r as [objs docs]. cbn.
  destruct (upload o); cbn in *.
  - destruct (downloadURL o) as [u|]; [|reflexivity].
    destruct (write o); [|reflexivity].
    rewrite bool_decide_eq_true_2 in H by eauto. discriminate.
  - now rewrite app_nil_r.
Qed.

Lemma imap_succ {A B} (f : nat -> A -> B) (i : nat) (l : list A) :
  imap (fun k => f (S i + k)%nat) l = imap ((fun k => f (i + k)%nat) ∘ S) l.
Proof.
  apply imap_ext. intros k a _. cbn.
  replace (i + S k)%nat with (S (i + k)) by lia. reflexivity.
Qed.

Lemma save_loop_succeeds env ps : forall i r,
  (forall k, (k < length ps)%nat -> succeeds (env (i + k)%nat) = true) ->
  save_loop ps env i r
  = ({| objects := objects r ++ imap (fun k => object_at env (i + k)) ps;
        documents := documents r ++ imap (fun k => doc_at env (i + k)) ps |},
     Fulfilled).
Proof.
  induction ps as [|p ps IH]; intros i r H.
  - cbn. rewrite !app_nil_r. now destruct r.
  - cbn [save_loop]. rewrite save_item_succeeds.
    2:{ specialize (H 0%nat). rewrite Nat.add_0_r in H. apply H. cbn. lia. }
    rewrite IH.
    2:{ intros k Hk. replace (S i + k)%nat with (i + S k)%nat by lia.
        apply H. cbn. lia. }
    cbn [objects documents].
    rewrite (imap_succ (object_at env)), (imap_succ (doc_at env)).
    rewrite !imap_cons, <- !app_assoc, Nat.add_0_r. reflexivity.
Qed.

Lemma save_loop_fails env ps : forall i r k p,
  ps !! k = Some p ->
  (forall j, (j < k)%nat -> succeeds (env (i + j)%nat) = true) ->
  succeeds (env (i + k)%nat) = false ->
  save_loop ps env i r
  = ({| objects := objects r
                   ++ imap (fun j => object_at env (i + j)) (take k ps)
                   ++ (if upload (env (i + k)%nat)
                       then [object_at env (i + k) p] else []);
        documents := documents r
                     ++ imap (fun j => doc_at env (i + j)) (take k ps) |},
     Rejected).
Proof.
  induction ps as [|q ps IH]; intros i r k p Hp Hok Hbad; [discriminate|].
  destruct k as [|k].
  - injection Hp as ->. cbn [save_loop take imap app].
    rewrite Nat.add_0_r in *. rewrite save_item_fails by exact Hbad.
    now rewrite app_nil_r.
  - cbn in Hp. cbn [save_loop]. rewrite save_item_succeeds.
    2:{ specialize (Hok 0%nat). rewrite Nat.add_0_r in Hok. apply Hok. lia. }
    rewrite (IH (S i) _ k p Hp).
    2:{ intros j Hj. replace (S i + j)%nat with (i + S j)%nat by lia.
        apply Hok. lia. }
    2:{ replace (S i + k)%nat with (i + S k)%nat by lia. exact Hbad. }
    cbn [objects documents take].
    rewrite (imap_succ (object_at env)), (imap_succ (doc_at env)).
    rewrite !imap_cons, <- !app_assoc, Nat.add_0_r.
    replace (S i + k)%nat with (i + S k)%nat by lia. reflexivity.
Qed.

Lemma revoke_all_revoked ps : forall b,
  revoked (revoke_all ps b) = revoked b ++ map previewUrl ps.
Proof.
  induction ps as [|p ps IH]; intros b; cbn.
  - now rewrite app_nil_r.
  - unfold revoke_all in IH. rewrite IH. cbn. now rewrite <- app_assoc.
Qed.

Lemma revoke_all_next ps : forall b,
  next_url (revoke_all ps b) = next_url b.
Proof.
  induction ps as [|p ps IH]; intros b; cbn; [reflexivity|].
  unfold revoke_all in IH. now rewrite IH.
Qed.

End save_facts.

Section claims_select.
Import JS Browser Firebase Page.

Lemma onSelect_new_entry files s k e :
  pending (page (onSelect files s)) !! (length (pending (page s)) + k)%nat
    = Some e ->
  exists f, files !! k = Some f
    /\ e = seeded (length (pending (page s)) + k)
                  (next_url (urls s) + 2 * k) f.
Proof.
  rewrite onSelect_pending, lookup_app_r by lia.
  replace (length (pending (page s)) + k - length (pending (page s)))%nat
    with k by lia.
  rewrite list_lookup_imap. destruct (files !! k) as [f|]; cbn; [|discriminate].
  intros [= <-]. eauto.
Qed.

(** C6: a selection of [k] files onto [n] pending entries leaves
    [n + k] entries, the first [n] being the old ones unchanged and the
    new one at position [n + j] being the seed for the [j]-th file
    (duplicates each get their own entry); a 1200x800 image selected
    first is seeded with w = 260, h = 173, x = 0, y = 0. *)
Theorem onSelect_appends_seeds (files : list File) (s : System) :
  let before := pending (page s) in
  let after := pending (page (onSelect files s)) in
  length after = (length before + length files)%nat
  /\ take (length before) after = before
  /\ (forall j f, files !! j = Some f ->
        after !! (length before + j)%nat
        = Some (seeded (length before + j) (next_url (urls s) + 2 * j) f))
  /\ (forall b r nm ty,
        pending (page (onSelect [mkFile nm ty (Some (1200, 800))] (mount b r)))
        = [ {| file := mkFile nm ty (Some (1200, 800));
               previewUrl := next_url b;
               x := num 0; y := num 0; w := num 260; h := num 173;
               caption := None |} ]).
Proof.
  cbn zeta. rewrite onSelect_pending. split; [|split; [|split]].
  - now rewrite length_app, length_imap.
  - now rewrite take_app_length.
  - intros j f Hj. rewrite lookup_app_r by lia.
    replace (length (pending (page s)) + j - length (pending (page s)))%nat
      with j by lia.
    rewrite list_lookup_imap, Hj. reflexivity.
  - intros b r nm ty. rewrite onSelect_pending. cbn.
    unfold seeded. cbn. rewrite Nat.add_0_r. reflexivity.
Qed.

(** C10: every entry a selection adds has width 260 and height
    [max(160, round(260 * max(0.3, height/width)))], the ratio being
    0.66 when the image gives no positive width; the height is never
    below 160, and a wide image gets 160 although its own ratio gives
    less. *)
Theorem seeded_size (files : list File) (s : System) (j : nat) (e : PendingFile) :
  pending (page (onSelect files s)) !! (length (pending (page s)) + j)%nat
    = Some e ->
  w e = num 260
  /\ exists hh : Z,
       h e = num hh
       /\ 160 <= hh
       /\ match image (file e) with
          | Some (dw, dh) =>
              if 0 <? dw then
                hh = Z.max 160
                       (Math_round (260 * Qmax (3 # 10) (inject_Z dh / inject_Z dw)))
                /\ (520 * dh < 321 * dw -> hh = 160)
                /\ (520 * dh < 319 * dw ->
                    Math_round (260 * (inject_Z dh / inject_Z dw)) < hh)
              else hh = Z.max 160 (Math_round (260 * (66 # 100)))
          | None => hh = Z.max 160 (Math_round (260 * (66 # 100)))
          end.
Proof.
  intros He. apply onSelect_new_entry in He as (f & _ & ->).
  split; [reflexivity|]. exists (baseH (image f)).
  split; [reflexivity|]. split; [apply baseH_at_least|].
  cbn [file seeded]. destruct (image f) as [[dw dh]|]; [|reflexivity].
  destruct (Z.ltb_spec 0 dw) as [Hw|Hw].
  - split; [now apply baseH_readable|]. split.
    + now apply baseH_wide.
    + intros H. eapply Z.lt_le_trans; [now apply true_ratio_below|].
      apply baseH_at_least.
  - now apply baseH_no_width.
Qed.

Lemma seeded_size_witness :
  w (seeded 0 0 (mkFile "wide.png" "image/png" (Some (1000, 100)))) = num 260
  /\ exists hh : Z,
       h (seeded 0 0 (mkFile "wide.png" "image/png" (Some (1000, 100)))) = num hh
       /\ 160 <= hh
       /\ (hh = Z.max 160 (Math_round (260 * Qmax (3 # 10) (inject_Z 100 / inject_Z 1000)))
           /\ (520 * 100 < 321 * 1000 -> hh = 160)
           /\ (520 * 100 < 319 * 1000 ->
               Math_round (260 * (inject_Z 100 / inject_Z 1000)) < hh)).
Proof.
  exact (seeded_size [mkFile "wide.png" "image/png" (Some (1000, 100))]
           (mount (mkUrls 0 []) (mkRemote [] [])) 0 _ eq_refl).
Defined.

End claims_select.

Section claims_save.
Import JS Browser Firebase Page.

Lemma count_occ_NoDup_1 (l : list nat) (u : nat) :
  NoDup l -> u ∈ l -> count_occ Nat.eq_dec l u = 1%nat.
Proof.
  intros Hnd Hin. apply NoDup_ListNoDup in Hnd.
  apply list_elem_of_In in Hin.
  pose proof (proj1 (NoDup_count_occ Nat.eq_dec l) Hnd u) as Hle.
  pose proof (proj1 (count_occ_In Nat.eq_dec l u) Hin). lia.
Qed.

Lemma onSave_succeeds_closed env s :
  pending (page s) <> [] ->
  (forall i, (i < length (pending (page s)))%nat -> succeeds (env i) = true) ->
  onSave env s
  = ({| page := set_isSaving false (set_pending [] (set_isSaving true (page s)));
        urls := revoke_all (pending (page s)) (urls s);
        remote :=
          {| objects := objects (remote s)
                        ++ imap (object_at env) (pending (page s));
             documents := documents (remote s)
                          ++ imap (doc_at env) (pending (page s)) |};
        teardown_pending := teardown_pending s;
        running := running s |}, Fulfilled).
Proof.
  intros Hne Hok. unfold onSave.
  destruct (pending (page s)) as [|p0 ps0] eqn:Eps; [congruence|].
  rewrite <- Eps in *.
  rewrite (save_loop_succeeds env (pending (page s)) 0 (remote s)) by exact Hok.
  reflexivity.
Qed.

(** C1: with a non-empty pending list of N items and every upload,
    URL lookup and document write succeeding, [onSave] fulfils; the
    objects and the N documents are appended in list order, each
    document made of the resolved URL, the file name, the item's x, y,
    w, h and its caption; the pending list is empty afterwards; and the
    revoke log grows by exactly the N preview handles, one call each,
    so that (the handles being distinct and unrevoked before, as they
    are in every state the page reaches) each is revoked exactly
    once. *)
Theorem onSave_all_succeed (env : nat -> Outcome) (s : System) :
  pending (page s) <> [] ->
  (forall i, (i < length (pending (page s)))%nat -> succeeds (env i) = true) ->
  let ps := pending (page s) in
  let s' := (onSave env s).1 in
  (onSave env s).2 = Fulfilled
  /\ objects (remote s') = objects (remote s) ++ imap (object_at env) ps
  /\ documents (remote s') = documents (remote s) ++ imap (doc_at env) ps
  /\ length (documents (remote s'))
     = (length (documents (remote s)) + length ps)%nat
  /\ (forall i p, ps !! i = Some p ->
        exists u, downloadURL (env i) = Some u
          /\ doc_at env i p
             = {| url := u; fileName := name (file p);
                  Firebase.x := x p; Firebase.y := y p;
                  Firebase.w := w p; Firebase.h := h p;
                  Firebase.caption := caption p |})
  /\ pending (page s') = []
  /\ isSaving (page s') = false
  /\ revoked (urls s') = revoked (urls s) ++ map previewUrl ps
  /\ (handles_ok s ->
      forall p, p ∈ ps ->
        count_occ Nat.eq_dec (revoked (urls s')) (previewUrl p) = 1%nat).
Proof.
  intros Hne Hok. cbn zeta. rewrite (onSave_succeeds_closed env s Hne Hok).
  cbn [fst snd page urls remote objects documents pending isSaving
       set_pending set_isSaving].
  assert (Hrev : revoked (revoke_all (pending (page s)) (urls s))
                 = revoked (urls s) ++ map previewUrl (pending (page s)))
    by apply revoke_all_revoked.
  repeat match goal with |- _ /\ _ => split end; try reflexivity.
  - now rewrite length_app, length_imap.
  - intros i p Hp. pose proof (Hok i (lookup_lt_Some _ _ _ Hp)) as Hi.
    unfold succeeds in Hi. apply andb_prop in Hi as [Hi _].
    apply andb_prop in Hi as [_ Hi].
    apply bool_decide_eq_true in Hi as [u Hu].
    exists u. split; [exact Hu|]. unfold doc_at. rewrite Hu. reflexivity.
  - exact Hrev.
  - intros (Hnd & _ & Hnr & _) p Hp. rewrite Hrev, count_occ_app.
    assert (Hin : previewUrl p ∈ handles (pending (page s)))
      by (apply list_elem_of_fmap; eauto).
    rewrite (count_occ_NoDup_1 (map previewUrl (pending (page s))))
      by assumption.
    rewrite Forall_forall in Hnr. specialize (Hnr _ Hin).
    rewrite list_elem_of_In in Hnr.
    apply (count_occ_not_In Nat.eq_dec) in Hnr. rewrite Hnr. reflexivity.
Qed.

End claims_save.

Section claims_failed_save.
Import JS Browser Firebase Page.

Lemma onSave_all_succeed_witness :
  (onSave Sample.ok Sample.three).2 = Fulfilled
  /\ length (documents (remote (onSave Sample.ok Sample.three).1)) = 3%nat
  /\ pending (page (onSave Sample.ok Sample.three).1) = []
  /\ revoked (urls (onSave Sample.ok Sample.three).1) = [0; 2; 4]%nat.
Proof.
  destruct (onSave_all_succeed Sample.ok Sample.three)
    as (A & _ & _ & B & _ & C & _ & D & _).
  - discriminate.
  - intros i _. reflexivity.
  - exact (conj A (conj B (conj C D))).
Defined.

Lemma onSave_fails_closed env s k p :
  pending (page s) !! k = Some p ->
  (forall i, (i < k)%nat -> succeeds (env i) = true) ->
  succeeds (env k) = false ->
  onSave env s
  = ({| page := set_isSaving false (page s);
        urls := urls s;
        remote :=
          {| objects := objects (remote s)
                        ++ imap (object_at env) (take k (pending (page s)))
                        ++ (if upload (env k) then [object_at env k p] else []);
             documents := documents (remote s)
                          ++ imap (doc_at env) (take k (pending (page s))) |};
        teardown_pending := teardown_pending s;
        running := running s |}, Rejected).
Proof.
  intros Hp Hok Hbad. unfold onSave.
  destruct (pending (page s)) as [|p0 ps0] eqn:Eps; [discriminate|].
  rewrite <- Eps in *.
  rewrite (save_loop_fails env (pending (page s)) 0 (remote s) k p Hp Hok Hbad).
  destruct s as [[ps sv sn] b r td rn]. reflexivity.
Qed.

(** C2: when the item at index [k] is the first whose upload, URL
    lookup or write fails, [onSave] rejects; the objects and documents
    of the items before [k] are in the store and stay there, nothing is
    uploaded or written for an item after [k] (what the world would
    have answered there is never asked), no item leaves the pending
    list, and [isSaving] is back to false. *)
Theorem onSave_aborts_at (env : nat -> Outcome) (s : System) (k : nat)
    (p : PendingFile) :
  pending (page s) !! k = Some p ->
  (forall i, (i < k)%nat -> succeeds (env i) = true) ->
  succeeds (env k) = false ->
  let ps := pending (page s) in
  let s' := (onSave env s).1 in
  (onSave env s).2 = Rejected
  /\ objects (remote s')
     = objects (remote s) ++ imap (object_at env) (take k ps)
       ++ (if upload (env k) then [object_at env k p] else [])
  /\ documents (remote s')
     = documents (remote s) ++ imap (doc_at env) (take k ps)
  /\ (forall env', (forall i, (i <= k)%nat -> env' i = env i) ->
        onSave env' s = onSave env s)
  /\ pending (page s') = ps
  /\ isSaving (page s') = false.
Proof.
  intros Hp Hok Hbad. cbn zeta.
  rewrite (onSave_fails_closed env s k p Hp Hok Hbad).
  cbn [fst snd page urls remote objects documents pending isSaving
       set_isSaving].
  repeat match goal with |- _ /\ _ => split end; try reflexivity.
  intros env' Hsame.
  rewrite (onSave_fails_closed env' s k p Hp).
  - rewrite (Hsame k) by lia. unfold object_at at 2 4.
    rewrite (Hsame k) by lia.
    do 4 f_equal.
    + f_equal. apply imap_ext. intros i q Hq.
      apply lookup_take_Some in Hq as [_ Hi].
      unfold object_at. now rewrite Hsame by lia.
    + apply imap_ext. intros i q Hq.
      apply lookup_take_Some in Hq as [_ Hi].
      unfold doc_at. now rewrite Hsame by lia.
  - intros i Hi. rewrite Hsame by lia. now apply Hok.
  - rewrite Hsame by lia. exact Hbad.
Qed.

Lemma onSave_aborts_at_witness :
  (onSave Sample.second_fails Sample.three).2 = Rejected
  /\ map fileName
       (documents (remote (onSave Sample.second_fails Sample.three).1))
     = ["a.png"]
  /\ map (fun q => name (file q))
       (pending (page (onSave Sample.second_fails Sample.three).1))
     = ["a.png"; "b.png"; "c.png"].
Proof.
  destruct (onSave_aborts_at Sample.second_fails Sample.three 1
              (seeded 1 2 Sample.b_png))
    as (A & _ & B & _ & C & _).
  - reflexivity.
  - intros i Hi. replace i with 0%nat by lia. reflexivity.
  - reflexivity.
  - split; [exact A|]. split; [rewrite B | rewrite C]; reflexivity.
Defined.

End claims_failed_save.

Section claims_retry.
Import JS Browser Firebase Page.

(** C3: when the item at index [k] is the first to fail, the pending
    list and the object-URL registry are exactly as before the save (no
    item removed, no layout touched, no handle revoked); a later save
    that succeeds therefore writes every item again, so each item
    before [k] has two documents in the store. *)
Theorem failed_save_then_retry (env : nat -> Outcome) (s : System) (k : nat)
    (p : PendingFile) :
  pending (page s) !! k = Some p ->
  (forall i, (i < k)%nat -> succeeds (env i) = true) ->
  succeeds (env k) = false ->
  let ps := pending (page s) in
  let s1 := (onSave env s).1 in
  pending (page s1) = ps
  /\ urls s1 = urls s
  /\ forall env2,
       (forall i, (i < length ps)%nat -> succeeds (env2 i) = true) ->
       let s2 := (onSave env2 s1).1 in
       (onSave env2 s1).2 = Fulfilled
       /\ documents (remote s2)
          = documents (remote s) ++ imap (doc_at env) (take k ps)
            ++ imap (doc_at env2) ps
       /\ forall i q, (i < k)%nat -> ps !! i = Some q ->
            let n := length (documents (remote s)) in
            documents (remote s2) !! (n + i)%nat = Some (doc_at env i q)
            /\ documents (remote s2) !! (n + k + i)%nat
               = Some (doc_at env2 i q)
            /\ fileName (doc_at env i q) = fileName (doc_at env2 i q)
            /\ layout_of_doc (doc_at env i q) = layout_of q
            /\ layout_of_doc (doc_at env2 i q) = layout_of q.
Proof.
  intros Hp Hok Hbad. cbn zeta.
  rewrite (onSave_fails_closed env s k p Hp Hok Hbad).
  cbn [fst page urls pending set_isSaving].
  split; [reflexivity|]. split; [reflexivity|].
  intros env2 Hok2.
  set (s1 := {| page := _ |}).
  assert (Hne : pending (page s1) <> []).
  { cbn. intros E. rewrite E in Hp. discriminate. }
  pose proof (onSave_succeeds_closed env2 s1 Hne Hok2) as E.
  assert (Hdocs : documents (remote (onSave env2 s1).1)
                  = documents (remote s)
                    ++ imap (doc_at env) (take k (pending (page s)))
                    ++ imap (doc_at env2) (pending (page s))).
  { rewrite E. cbn. now rewrite <- app_assoc. }
  split; [now rewrite E|].
  split; [exact Hdocs|].
  intros i q Hi Hq. rewrite Hdocs.
  assert (Hk : (k < length (pending (page s)))%nat)
    by (eapply lookup_lt_Some; exact Hp).
  assert (Hlen : length (imap (doc_at env) (take k (pending (page s)))) = k)
    by (rewrite length_imap, length_take; lia).
  repeat match goal with |- _ /\ _ => split end; try reflexivity.
  - rewrite lookup_app_r by lia.
    replace (length (documents (remote s)) + i
             - length (documents (remote s)))%nat with i by lia.
    rewrite lookup_app_l by lia.
    rewrite list_lookup_imap, lookup_take_lt by lia. now rewrite Hq.
  - rewrite lookup_app_r by lia.
    replace (length (documents (remote s)) + k + i
             - length (documents (remote s)))%nat with (k + i)%nat by lia.
    rewrite lookup_app_r by lia. rewrite Hlen.
    replace (k + i - k)%nat with i by lia.
    rewrite list_lookup_imap. now rewrite Hq.
Qed.

Lemma failed_save_then_retry_witness :
  pending (page (onSave Sample.second_fails Sample.three).1)
    = pending (page Sample.three)
  /\ map fileName
       (documents
          (remote (onSave Sample.ok
                     (onSave Sample.second_fails Sample.three).1).1))
     = ["a.png"; "a.png"; "b.png"; "c.png"].
Proof.
  destruct (failed_save_then_retry Sample.second_fails Sample.three 1
              (seeded 1 2 Sample.b_png))
    as (A & _ & B).
  - reflexivity.
  - intros i Hi. replace i with 0%nat by lia. reflexivity.
  - reflexivity.
  - split; [exact A|].
    destruct (B Sample.ok) as (_ & C & _).
    + intros i _. reflexivity.
    + rewrite C. reflexivity.
Defined.

End claims_retry.

Section event_loop_facts.
Import JS Browser Firebase Page.

Lemma onSelect_keeps files s :
  isSaving (page (onSelect files s)) = isSaving (page s)
  /\ snap (page (onSelect files s)) = snap (page s)
  /\ remote (onSelect files s) = remote s
  /\ teardown_pending (onSelect files s) = teardown_pending s
  /\ running (onSelect files s) = running s
  /\ revoked (urls (onSelect files s)) = revoked (urls s).
Proof.
  unfold onSelect. destruct files as [|f files]; [easy|].
  rewrite select_loop_closed. easy.
Qed.

Lemma removeOne_keeps idx s :
  isSaving (page (removeOne idx s)) = isSaving (page s)
  /\ snap (page (removeOne idx s)) = snap (page s)
  /\ remote (removeOne idx s) = remote s
  /\ teardown_pending (removeOne idx s) = teardown_pending s
  /\ running (removeOne idx s) = running s.
Proof.
  unfold removeOne. destruct (pending (page s) !! idx); easy.
Qed.

Lemma change_keeps idx next s :
  isSaving (page (change idx next s)) = isSaving (page s)
  /\ snap (page (change idx next s)) = snap (page s)
  /\ urls (change idx next s) = urls s
  /\ remote (change idx next s) = remote s
  /\ teardown_pending (change idx next s) = teardown_pending s
  /\ running (change idx next s) = running s.
Proof.
  unfold change. destruct (onChange idx next (pending (page s))); easy.
Qed.

Lemma one_save_ext s s' :
  running s' = running s -> isSaving (page s') = isSaving (page s) ->
  one_save s -> one_save s'.
Proof. unfold one_save. intros -> ->. trivial. Qed.

Lemma canSave_true st :
  canSave st = true <-> pending st <> [] /\ isSaving st = false.
Proof.
  unfold canSave. rewrite andb_true_iff, bool_decide_eq_true, negb_true_iff.
  destruct (pending st); cbn; split; intros [A B]; split;
    try congruence; try lia.
Qed.

Lemma one_save_step e s : one_save s -> one_save (step e s).
Proof.
  intros H. destruct e as [files|idx|idx evs|idx evs|checked| |t o];
    cbn [step].
  - destruct (onSelect_keeps files s) as (A & _ & _ & _ & B & _).
    exact (one_save_ext _ _ B A H).
  - destruct (removeOne_keeps idx s) as (A & _ & _ & _ & B).
    exact (one_save_ext _ _ B A H).
  - destruct (pending (page s) !! idx) as [p|]; [|exact H].
    destruct (change_keeps idx (Adapter.drag_gesture (layout_of p) evs) s)
      as (A & _ & _ & _ & _ & B).
    exact (one_save_ext _ _ B A H).
  - destruct (pending (page s) !! idx) as [p|]; [|exact H].
    destruct (change_keeps idx (Adapter.resize_gesture (layout_of p) evs) s)
      as (A & _ & _ & _ & _ & B).
    exact (one_save_ext _ _ B A H).
  - exact (one_save_ext _ _ eq_refl eq_refl H).
  - destruct (canSave (page s)) eqn:Ec; [|exact H].
    apply canSave_true in Ec as [Hne Hidle].
    destruct H as [[Hrun _]|(task & _ & _ & Hbusy)]; [|congruence].
    unfold start_save. destruct (pending (page s)) as [|p ps] eqn:Eps;
      [congruence|].
    right. eexists. cbn. rewrite Hrun. split; [reflexivity|]. split; easy.
  - unfold settle.
    destruct H as [[Hrun Hidle]|(task & Hrun & Htodo & Hbusy)].
    + rewrite Hrun. cbn. left. easy.
    + rewrite Hrun. destruct t as [|t]; cbn [lookup list_lookup];
        [|right; eauto].
      destruct task as [cap [|p rest]]; [cbn in Htodo; congruence|].
      destruct (save_item p o (remote s)) as [r [|]].
      * destruct rest as [|q rest].
        -- left. cbn. easy.
        -- right. eexists. cbn. split; [reflexivity|]. split; easy.
      * left. cbn. easy.
Qed.

Lemma reachable_one_save s : reachable s -> one_save s.
Proof.
  induction 1 as [b r|e s _ IH].
  - left. easy.
  - now apply one_save_step.
Qed.

Lemma step_keeps_teardown e s :
  teardown_pending (step e s) = teardown_pending s.
Proof.
  destruct e as [files|idx|idx evs|idx evs|checked| |t o]; cbn [step].
  - apply onSelect_keeps.
  - apply removeOne_keeps.
  - destruct (pending (page s) !! idx); [apply change_keeps | reflexivity].
  - destruct (pending (page s) !! idx); [apply change_keeps | reflexivity].
  - reflexivity.
  - destruct (canSave (page s)); [|reflexivity].
    unfold start_save. now destruct (pending (page s)).
  - unfold settle. destruct (running s !! t) as [[cap [|p rest]]|];
      try reflexivity.
    destruct (save_item p o (remote s)) as [r [|]]; [|reflexivity].
    now destruct rest.
Qed.

Lemma reachable_teardown s : reachable s -> teardown_pending s = [].
Proof.
  induction 1 as [b r|e s _ IH]; [reflexivity|].
  now rewrite step_keeps_teardown.
Qed.

End event_loop_facts.

Section save_as_events.
Import JS Browser Firebase Page.

Lemma settle_idle t o s : running s = [] -> settle t o s = s.
Proof. unfold settle. intros ->. reflexivity. Qed.

Lemma run_settle_idle (os : list (nat * Outcome)) s :
  running s = [] ->
  run (map (fun to => Settle to.1 to.2) os) s = s.
Proof.
  induction os as [|[t o] os IH]; intros H; [reflexivity|].
  cbn. rewrite settle_idle by exact H. now apply IH.
Qed.

Lemma run_cons e es s : run (e :: es) s = run es (step e s).
Proof. reflexivity. Qed.

Lemma settle_head o cap p rest pg b r td :
  settle 0 o {| page := pg; urls := b; remote := r; teardown_pending := td;
                running := [{| captured := cap; todo := p :: rest |}] |}
  = match save_item p o r, rest with
    | (r', Fulfilled), _ :: _ =>
        {| page := pg; urls := b; remote := r'; teardown_pending := td;
           running := [{| captured := cap; todo := rest |}] |}
    | (r', Fulfilled), [] =>
        {| page := set_isSaving false (set_pending [] pg);
           urls := revoke_all cap b; remote := r';
           teardown_pending := td; running := [] |}
    | (r', Rejected), _ =>
        {| page := set_isSaving false pg; urls := b; remote := r';
           teardown_pending := td; running := [] |}
    end.
Proof.
  unfold settle. cbn. destruct (save_item p o r) as [r' [|]];
    destruct rest; reflexivity.
Qed.

Lemma run_settles env cap pg b td : forall (rest : list PendingFile) p i r,
  run (map (fun i => Settle 0 (env i)) (seq i (length (p :: rest))))
      {| page := pg; urls := b; remote := r; teardown_pending := td;
         running := [{| captured := cap; todo := p :: rest |}] |}
  = match save_loop (p :: rest) env i r with
    | (r', Fulfilled) =>
        {| page := set_isSaving false (set_pending [] pg);
           urls := revoke_all cap b; remote := r';
           teardown_pending := td; running := [] |}
    | (r', Rejected) =>
        {| page := set_isSaving false pg;
           urls := b; remote := r';
           teardown_pending := td; running := [] |}
    end.
Proof.
  induction rest as [|q rest IH]; intros p i r.
  - cbn [length seq map]. rewrite run_cons. cbn [step].
    rewrite settle_head. cbn [save_loop].
    destruct (save_item p (env i) r) as [r' [|]]; reflexivity.
  - change (length (p :: q :: rest)) with (S (length (q :: rest))).
    cbn [seq map]. rewrite run_cons. cbn [step].
    rewrite settle_head.
    change (save_loop (p :: q :: rest) env i r)
      with (match save_item p (env i) r with
            | (r', Fulfilled) => save_loop (q :: rest) env (S i) r'
            | (r', Rejected) => (r', Rejected)
            end).
    destruct (save_item p (env i) r) as [r' [|]].
    + apply IH.
    + rewrite <- (map_map (fun i => (0%nat, env i))
                          (fun to => Settle to.1 to.2)).
      now rewrite run_settle_idle.
Qed.

(** [onSave] is the event loop run on the click and the settling of
    its awaits, with no other event in between. *)
Lemma onSave_as_events env s :
  canSave (page s) = true -> running s = [] ->
  run (save_events env (length (pending (page s)))) s = (onSave env s).1.
Proof.
  intros Hc Hrun. unfold save_events, onSave.
  rewrite run_cons. cbn [step]. rewrite Hc. unfold start_save.
  apply canSave_true in Hc as [Hne _].
  destruct (pending (page s)) as [|p ps] eqn:Eps; [congruence|].
  cbv iota. rewrite Hrun. cbn [app]. rewrite run_settles.
  destruct (save_loop (p :: ps) env 0 (remote s)) as [r' [|]];
    reflexivity.
Qed.

End save_as_events.

Section claims_flag.
Import JS Browser Firebase Page.

Lemma save_label_saving st :
  save_label st = "Saving…" <-> isSaving st = true.
Proof.
  unfold save_label. destruct (isSaving st); split; easy.
Qed.

(** C8: in every state the page can reach at most one [onSave] is under
    way, and [isSaving] is true exactly while one is; the save button
    lets no click through while [isSaving] is true or the pending list
    is empty; when the running save ends, by completing or by a
    failure, [isSaving] is false again; a failure changes nothing of
    the page but that flag, so all it shows is the button leaving
    "Saving…" for its idle label. *)
Theorem save_never_overlaps (s : System) :
  reachable s ->
  (length (running s) <= 1)%nat
  /\ (isSaving (page s) = true <-> running s <> [])
  /\ (isSaving (page s) = true \/ pending (page s) = [] ->
      canSave (page s) = false /\ step ClickSave s = s)
  /\ (forall t o, running (step (Settle t o) s) = [] ->
        isSaving (page (step (Settle t o) s)) = false)
  /\ (forall t o task, running s !! t = Some task -> succeeds o = false ->
        running (step (Settle t o) s) = []
        /\ page (step (Settle t o) s) = set_isSaving false (page s)
        /\ save_label (page (step (Settle t o) s)) <> "Saving…")
  /\ (save_label (page s) = "Saving…" <-> isSaving (page s) = true).
Proof.
  intros Hr. pose proof (reachable_one_save s Hr) as Hone.
  split; [|split; [|split; [|split; [|split]]]].
  - destruct Hone as [[-> _]|(task & -> & _)]; cbn; lia.
  - destruct Hone as [[-> ->]|(task & -> & _ & ->)]; split; easy.
  - intros H.
    assert (Hc : canSave (page s) = false).
    { destruct (canSave (page s)) eqn:Ec; [|reflexivity].
      apply canSave_true in Ec as [Hne Hidle].
      destruct H as [H|H]; congruence. }
    split; [exact Hc|]. cbn [step]. now rewrite Hc.
  - intros t o Hend.
    pose proof (reachable_one_save _ (reachable_step (Settle t o) s Hr)) as H'.
    destruct H' as [[_ H']|(task & H' & _)]; [exact H'|congruence].
  - intros t o task Ht Hbad.
    destruct Hone as [[Hrun _]|(task' & Hrun & Htodo & _)];
      [rewrite Hrun in Ht; discriminate|].
    rewrite Hrun in Ht. destruct t as [|t]; [|discriminate].
    injection Ht as <-.
    destruct task' as [cap [|p rest]]; [cbn in Htodo; congruence|].
    destruct s as [pg b r td rn]. cbn in Hrun. subst rn.
    cbn [step]. rewrite settle_head, save_item_fails by exact Hbad.
    cbn [running page]. split; [reflexivity|]. split; [reflexivity|].
    intros E. apply save_label_saving in E. discriminate.
  - apply save_label_saving.
Qed.

Lemma save_never_overlaps_witness :
  (length (running (step ClickSave Sample.three)) <= 1)%nat
  /\ isSaving (page (step ClickSave Sample.three)) = true
  /\ step ClickSave (step ClickSave Sample.three) = step ClickSave Sample.three.
Proof.
  assert (R : reachable (step ClickSave Sample.three))
    by (do 2 apply reachable_step; apply reachable_mount).
  destruct (save_never_overlaps _ R) as (A & B & C & _).
  split; [exact A|]. split; [apply B; discriminate|].
  apply C. left. reflexivity.
Defined.

End claims_flag.

Section adapter_facts.
Import JS Adapter.

Lemma or_zero_not_NaN a : is_NaN (or_zero a) = false.
Proof. unfold or_zero. destruct a; try reflexivity. now destruct (truthy _). Qed.

Lemma read_coord_not_NaN a : is_NaN (read_coord a) = false.
Proof. apply or_zero_not_NaN. Qed.


(** In page.tsx the edge and size restrictions are installed on both
    actions whatever the snap setting; the component installs them on
    [resizable] only. *)
Lemma page_item_restrictions (snap : bool) :
  forall m, m ∈ [restrictEdges parent; restrictSize 80 80] ->
    m ∈ modifiers (draggable (page_item snap))
    /\ m ∈ modifiers (resizable (page_item snap)).
Proof.
  intros m Hm. unfold page_item, mods. cbn [draggable resizable modifiers].
  split; apply elem_of_app; left; exact Hm.
Qed.

End adapter_facts.


Section claims_adapter.
Import JS Adapter.




(** With snapping on the listeners still report what they are
    delivered: a move delivered as (12, 7.3125) ends the first item at
    x = 12, y = 7.3125. *)
Lemma off_grid_delta_is_reported :
  x (page_drag true (Page.layout_of (Page.seeded 0 0 Sample.a_png))
       [mkDrag (Some (num 12)) (Some (Fin (117 # 16)))]) = num 12
  /\ y (page_drag true (Page.layout_of (Page.seeded 0 0 Sample.a_png))
          [mkDrag (Some (num 12)) (Some (Fin (117 # 16)))]) = Fin (117 # 16)
  /\ ~ multiple_of 8 (num 12)
  /\ ~ multiple_of 8 (Fin (117 # 16)).
Proof.
  split; [reflexivity|]. split; [reflexivity|].
  split; intros [k Hk]; unfold Qeq in Hk; cbn in Hk; lia.
Qed.



End claims_adapter.

Section claims_bounds.
Import JS Adapter.

(** C4 at the failing input: the component's [draggable] has no
    modifiers, so a pointer moved 50 to the left is delivered as it is;
    the item, inside a 1000x420 parent at (0, 0), is reported at
    x = -50, outside the parent. Its size is untouched. *)
Theorem component_drag_leaves_parent :
  modifiers (draggable component_item) = []
  /\ modifiers (resizable component_item)
     = [restrictEdges parent; restrictSize 80 80]
  /\ let box := {| parent_width := 1000; parent_height := 420 |} in
     let item := Page.layout_of (Page.seeded 0 0 Sample.a_png) in
     let moved := drag_gesture item [mkDrag (Some (num (-50))) (Some (num 0))] in
     inside_parent box item = true
     /\ moved = {| x := num (-50); y := num 0; w := num 260; h := num 173 |}
     /\ inside_parent box moved = false.
Proof. repeat split. Qed.

(** C9, as stated, fails: an infinite [dx] is neither dropped nor
    replaced by zero; the end listener reports x = Infinity. *)
Lemma infinite_delta_is_reported :
  let moved := drag_gesture (Page.layout_of (Page.seeded 0 0 Sample.a_png))
                 [mkDrag (Some PInf) (Some (num 0))] in
  x moved = PInf /\ is_finite (x moved) = false.
Proof. split; reflexivity. Qed.

(** A [NaN] delta is written to the data attribute as it is; only the
    next read turns the stored coordinate, not the delta, into 0. *)
Lemma nan_delta_is_recorded :
  dataset_x (drag_move (mkDrag (Some NaN) None)
               (init (Page.layout_of (Page.seeded 1 2 Sample.b_png)) fresh))
    = ANumeric NaN
  /\ x (drag_gesture (Page.layout_of (Page.seeded 1 2 Sample.b_png))
          [mkDrag (Some NaN) None]) = num 0.
Proof. split; reflexivity. Qed.

(** C9, amended: a missing drag delta and a missing, NaN or zero
    [deltaRect] offset count as zero; a stored coordinate that is
    absent, empty, unparsable or NaN is read as zero; so whatever the
    events hold, the listeners run to the end, the reported x and y are
    never NaN and the reported w and h are integers. *)
Theorem reported_layout_never_NaN (l : Layout) :
  (forall evs,
     is_NaN (x (drag_gesture l evs)) = false
     /\ is_NaN (y (drag_gesture l evs)) = false
     /\ exists n m : Z, w (drag_gesture l evs) = num n
                        /\ h (drag_gesture l evs) = num m)
  /\ (forall evs,
        is_NaN (x (resize_gesture l evs)) = false
        /\ is_NaN (y (resize_gesture l evs)) = false
        /\ exists n m : Z, w (resize_gesture l evs) = num n
                           /\ h (resize_gesture l evs) = num m)
  /\ (forall el, drag_move (mkDrag None None) el
                 = drag_move (mkDrag (Some (num 0)) (Some (num 0))) el)
  /\ (forall el r,
        resize_move (mkResize r None) el
          = resize_move
              (mkResize r (Some (mkDeltaRect (Some (num 0)) (Some (num 0))))) el
        /\ resize_move (mkResize r (Some (mkDeltaRect None None))) el
           = resize_move
               (mkResize r (Some (mkDeltaRect (Some (num 0)) (Some (num 0))))) el
        /\ resize_move (mkResize r (Some (mkDeltaRect (Some NaN) (Some NaN)))) el
           = resize_move
               (mkResize r (Some (mkDeltaRect (Some (num 0)) (Some (num 0))))) el)
  /\ read_coord AUndefined = num 0
  /\ read_coord AEmpty = num 0
  /\ read_coord AOther = num 0
  /\ read_coord (ANumeric NaN) = num 0.
Proof.
  split; [|split; [|split; [|split]]].
  - intros evs. unfold drag_gesture, drag_end. cbn [x y w h].
    rewrite !read_coord_not_NaN.
    split; [reflexivity|]. split; [reflexivity|].
    eexists _, _. split; reflexivity.
  - intros evs. unfold resize_gesture, resize_end. cbn [x y w h].
    rewrite !read_coord_not_NaN.
    split; [reflexivity|]. split; [reflexivity|].
    eexists _, _. split; reflexivity.
  - reflexivity.
  - intros el r. repeat split.
  - repeat split.
Qed.

End claims_bounds.

Section claims_teardown.
Import JS Browser Firebase Page.

(** The teardown effect revokes nothing, whatever the page holds. *)
Lemma unmount_revokes_nothing (s : System) :
  reachable s -> unmount s = s.
Proof.
  intros H. pose proof (reachable_teardown s H) as E.
  destruct s as [pg b r td rn]. cbn in E. subst td. reflexivity.
Qed.

(** C7 at the failing input: one file is selected and the page is
    unmounted. The entry's preview URL (number 0) is still in the
    pending list and no [revokeObjectURL] call was made. *)
Theorem teardown_leaves_preview_url :
  pending (page Sample.one) = [seeded 0 0 Sample.a_png]
  /\ teardown_pending Sample.one = []
  /\ revoked (urls (unmount Sample.one)) = []
  /\ previewUrl (seeded 0 0 Sample.a_png) ∉ revoked (urls (unmount Sample.one)).
Proof.
  split; [reflexivity|]. split; [reflexivity|]. split; [reflexivity|].
  cbn. apply not_elem_of_nil.
Qed.

(** Two more ways a handle is not released exactly once, both from
    [onSave] working on the [pending] it closed over: an entry selected
    while a save runs is dropped by [setPending([])] unrevoked, and an
    entry removed while a save runs is revoked a second time. *)
Lemma select_during_save_leaks :
  let s := run [Select [Sample.a_png]; ClickSave; Select [Sample.b_png];
                Settle 0 (Sample.ok 0)]
             (mount Sample.no_urls Sample.empty_remote) in
  pending (page s) = [] /\ revoked (urls s) = [0%nat] /\ next_url (urls s) = 4%nat.
Proof. repeat split. Qed.

(** The object URL [readImageDims] makes for measuring is revoked by
    nobody: after three files were selected and saved, six URLs exist
    and the three preview URLs are the only ones revoked. *)
Lemma measuring_urls_stay :
  let s := (onSave Sample.ok Sample.three).1 in
  next_url (urls s) = 6%nat /\ revoked (urls s) = [0; 2; 4]%nat.
Proof. split; reflexivity. Qed.

Lemma remove_during_save_revokes_twice :
  let s := run [Select [Sample.a_png; Sample.b_png]; ClickSave; Remove 0;
                Settle 0 (Sample.ok 0); Settle 0 (Sample.ok 1)]
             (mount Sample.no_urls Sample.empty_remote) in
  pending (page s) = [] /\ revoked (urls s) = [0; 0; 2]%nat.
Proof. repeat split. Qed.

End claims_teardown.


Section handle_invariants.
Import JS Browser Firebase Page.

Lemma onSelect_urls files s :
  next_url (urls (onSelect files s))
    = (next_url (urls s) + 2 * length files)%nat
  /\ revoked (urls (onSelect files s)) = revoked (urls s).
Proof.
  unfold onSelect. destruct files as [|f files].
  - cbn. split; [lia|reflexivity].
  - rewrite select_loop_closed. cbn [urls next_url revoked]. easy.
Qed.

Lemma handles_seeded (n b : nat) (files : list File) :
  handles (imap (fun k f => seeded (n + k) (b + 2 * k) f) files)
  = (fun k => (b + 2 * k)%nat) <$> seq 0 (length files).
Proof.
  unfold handles. rewrite fmap_imap, <- imap_seq_0.
  apply imap_ext. reflexivity.
Qed.

Lemma handles_insert_merge idx p next ps :
  ps !! idx = Some p -> handles (<[idx := merge p next]> ps) = handles ps.
Proof.
  intros H. unfold handles. rewrite list_fmap_insert.
  apply list_insert_id. now rewrite list_lookup_fmap, H.
Qed.

Lemma NoDup_delete_lookup (l : list nat) (i : nat) (u : nat) :
  NoDup l -> l !! i = Some u -> u ∉ delete i l.
Proof.
  intros Hnd Hi. rewrite delete_take_drop.
  rewrite <- (take_drop_middle l i u Hi) in Hnd.
  apply NoDup_app in Hnd as (_ & Hl & Hr). apply NoDup_cons in Hr as [Hr _].
  intros Hin. apply elem_of_app in Hin as [Hin|Hin]; [|contradiction].
  apply (Hl u Hin). left.
Qed.

Lemma Forall_lt_mono (l : list nat) (a b : nat) :
  (a <= b)%nat -> Forall (fun u => (u < a)%nat) l -> Forall (fun u => (u < b)%nat) l.
Proof.
  intros Hab H. eapply Forall_impl; [exact H|]. cbn. intros u Hu. lia.
Qed.

Lemma captured_lt_mono (ts : list Task) (a b : nat) :
  (a <= b)%nat ->
  Forall (fun t => Forall (fun u => (u < a)%nat) (handles (captured t))) ts ->
  Forall (fun t => Forall (fun u => (u < b)%nat) (handles (captured t))) ts.
Proof.
  intros Hab H. eapply Forall_impl; [exact H|]. cbn.
  intros t. now apply Forall_lt_mono.
Qed.

Lemma handles_ok_select files s : handles_ok s -> handles_ok (onSelect files s).
Proof.
  intros (Hnd & Hlt & Hnr & Hrv & Hcap). unfold handles_ok.
  destruct (onSelect_urls files s) as [En Er].
  destruct (onSelect_keeps files s) as (_ & _ & _ & _ & Erun & _).
  rewrite onSelect_pending, En, Er, Erun.
  unfold handles at 1 2 3. rewrite fmap_app. fold (handles (pending (page s))).
  fold (handles (imap (fun k f => seeded (length (pending (page s)) + k)
                         (next_url (urls s) + 2 * k) f) files)).
  rewrite handles_seeded.
  set (new := (fun k => (next_url (urls s) + 2 * k)%nat) <$> seq 0 (length files)).
  assert (Hnew : forall u, u ∈ new ->
            (next_url (urls s) <= u < next_url (urls s) + 2 * length files)%nat).
  { intros u Hu. apply list_elem_of_fmap in Hu as (k & -> & Hk).
    apply elem_of_seq in Hk. lia. }
  split; [|split; [|split; [|split]]].
  - apply NoDup_app. split; [exact Hnd|]. split.
    + intros u Hu Hu'. apply Hnew in Hu'.
      rewrite Forall_forall in Hlt. specialize (Hlt u Hu). lia.
    + apply NoDup_fmap_2_strong; [|apply NoDup_seq].
      intros a b _ _ E. lia.
  - apply Forall_app. split.
    + eapply Forall_lt_mono; [|exact Hlt]. lia.
    + apply Forall_forall. intros u Hu. apply Hnew in Hu. lia.
  - apply Forall_app. split; [exact Hnr|].
    apply Forall_forall. intros u Hu Hu'. apply Hnew in Hu.
    rewrite Forall_forall in Hrv. specialize (Hrv u Hu'). lia.
  - eapply Forall_lt_mono; [|exact Hrv]. lia.
  - eapply captured_lt_mono; [|exact Hcap]. lia.
Qed.

Lemma handles_ok_remove idx s : handles_ok s -> handles_ok (removeOne idx s).
Proof.
  intros (Hnd & Hlt & Hnr & Hrv & Hcap). unfold removeOne.
  destruct (pending (page s) !! idx) as [removed|] eqn:Ei;
    [|repeat split; assumption].
  unfold handles_ok.
  cbn [page urls running pending set_pending revokeObjectURL next_url revoked].
  assert (Eu : handles (pending (page s)) !! idx = Some (previewUrl removed)).
  { unfold handles. now rewrite list_lookup_fmap, Ei. }
  assert (Ed : handles (delete idx (pending (page s)))
               = delete idx (handles (pending (page s))))
    by apply list_fmap_delete.
  rewrite Ed.
  split; [|split; [|split; [|split]]].
  - eapply sublist_NoDup; [exact Hnd | apply sublist_delete].
  - now apply Forall_delete.
  - apply Forall_forall. intros u Hu Hin.
    apply elem_of_app in Hin as [Hin|Hin].
    + apply list_elem_of_delete_inv in Hu.
      rewrite Forall_forall in Hnr. exact (Hnr u Hu Hin).
    + apply list_elem_of_singleton in Hin as ->.
      exact (NoDup_delete_lookup _ _ _ Hnd Eu Hu).
  - apply Forall_app. split; [exact Hrv|]. constructor; [|constructor].
    exact (Forall_lookup_1 _ _ _ _ Hlt Eu).
  - exact Hcap.
Qed.

Lemma handles_ok_change idx next s : handles_ok s -> handles_ok (change idx next s).
Proof.
  intros H. unfold change, onChange.
  destruct (pending (page s) !! idx) as [p|] eqn:Ei; [|exact H].
  unfold handles_ok. cbn [page urls running pending set_pending].
  rewrite (handles_insert_merge idx p next _ Ei). exact H.
Qed.

Lemma handles_ok_settle t o s : handles_ok s -> handles_ok (settle t o s).
Proof.
  intros (Hnd & Hlt & Hnr & Hrv & Hcap). unfold settle.
  destruct (running s !! t) as [[cap [|p rest]]|] eqn:Et;
    try (repeat split; assumption).
  pose proof (Forall_lookup_1 _ _ _ _ Hcap Et) as Hc. cbn in Hc.
  destruct (save_item p o (remote s)) as [r [|]].
  - destruct rest as [|q rest].
    + unfold handles_ok.
      cbn [page urls running pending set_pending set_isSaving].
      rewrite revoke_all_revoked, revoke_all_next.
      split; [constructor|]. split; [constructor|]. split; [constructor|].
      split; [apply Forall_app; split; assumption|].
      now apply Forall_delete.
    + unfold handles_ok. cbn [page urls running].
      repeat (split; [assumption|]).
      apply Forall_insert; [exact Hcap|exact Hc].
  - unfold handles_ok. cbn [page urls running pending set_isSaving].
    repeat (split; [assumption|]). now apply Forall_delete.
Qed.

Lemma handles_ok_step e s : handles_ok s -> handles_ok (step e s).
Proof.
  intros H. destruct e as [files|idx|idx evs|idx evs|checked| |t o];
    cbn [step].
  - now apply handles_ok_select.
  - now apply handles_ok_remove.
  - destruct (pending (page s) !! idx); [now apply handles_ok_change|exact H].
  - destruct (pending (page s) !! idx); [now apply handles_ok_change|exact H].
  - exact H.
  - destruct (canSave (page s)); [|exact H].
    destruct H as (Hnd & Hlt & Hnr & Hrv & Hcap).
    unfold start_save. destruct (pending (page s)) as [|p ps] eqn:Eps;
      [rewrite <- Eps in *; repeat split; assumption|].
    unfold handles_ok. cbn [page urls running pending set_isSaving].
    rewrite Eps. repeat (split; [assumption|]).
    apply Forall_app. split; [exact Hcap|]. constructor; [exact Hlt|constructor].
  - now apply handles_ok_settle.
Qed.

(** From a registry in which only created URLs were revoked, the page
    only reaches states whose pending entries hold distinct, created,
    unrevoked URLs. *)
Lemma run_handles_ok es : forall s, handles_ok s -> handles_ok (run es s).
Proof.
  induction es as [|e es IH]; intros s H; [exact H|].
  rewrite run_cons. apply IH. now apply handles_ok_step.
Qed.

Lemma mount_handles_ok b r :
  Forall (fun u => (u < next_url b)%nat) (revoked b) -> handles_ok (mount b r).
Proof. intros H. repeat split; try constructor. exact H. Qed.

End handle_invariants.


Section gesture_arithmetic.
Import JS Adapter.

Lemma whole_spec (p : number) (a : Z) :
  whole p = Some a <-> exists q, p = Fin q /\ (q == inject_Z a)%Q.
Proof.
  split.
  - destruct p as [| | |q]; try discriminate. cbn.
    destruct (Qeq_bool q (inject_Z (Qfloor q))) eqn:E; [|discriminate].
    intros [= <-]. exists q. split; [reflexivity|]. now apply Qeq_bool_iff.
  - intros (q & -> & E). cbn.
    assert (F : Qfloor q = a) by (rewrite E; apply Qfloor_Z).
    rewrite F.
    destruct (Qeq_bool q (inject_Z a)) eqn:B; [reflexivity|].
    apply Qeq_bool_iff in E. congruence.
Qed.

Lemma whole_add (p q : number) (a d : Z) :
  whole p = Some a -> whole q = Some d -> whole (add p q) = Some (a + d).
Proof.
  intros (p' & -> & Ep)%whole_spec (q' & -> & Eq)%whole_spec.
  apply whole_spec. exists (Qred (p' + q')). split; [reflexivity|].
  rewrite Qred_correct, Ep, Eq, inject_Z_plus. reflexivity.
Qed.

Lemma whole_or_zero (p : number) (a : Z) :
  whole p = Some a -> whole (or_zero p) = Some a.
Proof.
  intros H. unfold or_zero. destruct (truthy p) eqn:T; [exact H|].
  apply whole_spec in H as (q & -> & E). cbn in T.
  apply negb_false_iff, Qeq_bool_iff in T.
  apply whole_spec. exists (inject_Z 0). split; [reflexivity|].
  rewrite <- E, T. reflexivity.
Qed.

Lemma whole_read_back (n : number) (a : Z) :
  whole n = Some a -> whole (read_coord (String_ n)) = Some a.
Proof. apply whole_or_zero. Qed.

Lemma whole_delta_spec (ev : DragEvent) (da db : Z) :
  whole_delta ev = Some (da, db) ->
  whole (nullish_zero (dx ev)) = Some da
  /\ whole (nullish_zero (dy ev)) = Some db.
Proof.
  unfold whole_delta.
  destruct (whole (nullish_zero (dx ev))) as [a|]; [|discriminate].
  destruct (whole (nullish_zero (dy ev))) as [b|]; [|discriminate].
  now intros [= -> ->].
Qed.

Lemma drag_moves_whole (evs : list DragEvent) :
  forall (ds : list (Z * Z)) (el : Element) (a b : Z),
  whole (read_coord (dataset_x el)) = Some a ->
  whole (read_coord (dataset_y el)) = Some b ->
  whole_moves evs = Some ds ->
  whole (read_coord
           (dataset_x (fold_left (fun el ev => drag_move ev el) evs el)))
    = Some (a + total (fst <$> ds))
  /\ whole (read_coord
              (dataset_y (fold_left (fun el ev => drag_move ev el) evs el)))
     = Some (b + total (snd <$> ds)).
Proof.
  induction evs as [|ev evs IH]; intros ds el a b Ha Hb Hds.
  - injection Hds as <-. cbn. now rewrite !Z.add_0_r.
  - cbn [whole_moves] in Hds.
    destruct (whole_delta ev) as [[da db]|] eqn:Ed; [|discriminate].
    destruct (whole_moves evs) as [ds'|] eqn:Es; [|discriminate].
    injection Hds as <-.
    apply whole_delta_spec in Ed as [Hda Hdb].
    cbn [fold_left fmap list_fmap total fold_right fst snd].
    rewrite !Z.add_assoc.
    apply IH; [| |reflexivity]; cbn [drag_move dataset_x dataset_y];
      apply whole_read_back, whole_add; assumption.
Qed.

Lemma sums_safe_total (ds : list Z) :
  forall a, sums_safe a ds -> safe (a + total ds).
Proof.
  induction ds as [|d ds IH]; intros a H; cbn in *.
  - now rewrite Z.add_0_r.
  - rewrite Z.add_assoc. apply IH. tauto.
Qed.

(** X1: a drag adds up what it is delivered. On an item at a
    whole-number position, with moves whose deltas are whole numbers (a
    missing one counting as 0), the gesture reports the starting
    position plus the sum of the deltas, to the unit. The statement is
    for positions, deltas and running sums within the safe integers
    (at most 2^53 - 1 in size), where adding doubles is adding
    integers; the reported position is then a safe integer too. *)
Theorem drag_adds_whole_moves (l : Layout) (evs : list DragEvent)
    (a b : Z) (ds : list (Z * Z)) :
  whole (x l) = Some a -> whole (y l) = Some b ->
  whole_moves evs = Some ds ->
  sums_safe a (fst <$> ds) -> sums_safe b (snd <$> ds) ->
  whole (x (drag_gesture l evs)) = Some (a + total (fst <$> ds))
  /\ whole (y (drag_gesture l evs)) = Some (b + total (snd <$> ds))
  /\ safe (a + total (fst <$> ds))
  /\ safe (b + total (snd <$> ds)).
Proof.
  intros Ha Hb Hds Sa Sb.
  destruct (drag_moves_whole evs ds (init l fresh) a b) as [X Y].
  - now apply whole_read_back.
  - now apply whole_read_back.
  - exact Hds.
  - split; [exact X|]. split; [exact Y|].
    split; now apply sums_safe_total.
Qed.

Lemma drag_adds_whole_moves_witness :
  let l := {| x := num 16; y := Fin (32 # 2); w := num 260; h := num 173 |} in
  let evs := [mkDrag (Some (num 8)) None;
              mkDrag (Some (num (-24))) (Some (num 5));
              mkDrag None (Some (Fin (-42 # 2)))] in
  whole (x (drag_gesture l evs)) = Some 0
  /\ whole (y (drag_gesture l evs)) = Some 0.
Proof.
  cbn zeta.
  destruct (drag_adds_whole_moves
              {| x := num 16; y := Fin (32 # 2); w := num 260; h := num 173 |}
              [mkDrag (Some (num 8)) None;
               mkDrag (Some (num (-24))) (Some (num 5));
               mkDrag None (Some (Fin (-42 # 2)))]
              16 16 [(8, 0); (-24, 5); (0, -21)])
    as (X & Y & _).
  - reflexivity.
  - reflexivity.
  - reflexivity.
  - cbn. unfold safe. repeat split; vm_compute; discriminate.
  - cbn. unfold safe. repeat split; vm_compute; discriminate.
  - split; [exact X|exact Y].
Defined.

End gesture_arithmetic.

Section pending_list_operations.
Import JS Browser Firebase Page.

(** X5: [removeOne] at an index inside the list takes out exactly that
    entry (the others keep their order), revokes exactly its preview
    URL, and touches nothing else; at an index past the end it changes
    nothing and revokes nothing. *)
Theorem removeOne_removes_one (idx : nat) (s : System) :
  match pending (page s) !! idx with
  | Some p =>
      pending (page (removeOne idx s))
        = take idx (pending (page s)) ++ drop (S idx) (pending (page s))
      /\ S (length (pending (page (removeOne idx s))))
         = length (pending (page s))
      /\ revoked (urls (removeOne idx s))
         = revoked (urls s) ++ [previewUrl p]
      /\ next_url (urls (removeOne idx s)) = next_url (urls s)
      /\ remote (removeOne idx s) = remote s
      /\ isSaving (page (removeOne idx s)) = isSaving (page s)
      /\ running (removeOne idx s) = running s
  | None => removeOne idx s = s
  end.
Proof.
  unfold removeOne. destruct (pending (page s) !! idx) as [p|] eqn:E;
    [|reflexivity].
  cbn [page urls remote running pending isSaving set_pending
       revokeObjectURL revoked next_url].
  split; [apply delete_take_drop|].
  split; [|repeat split].
  rewrite length_delete by eauto.
  apply lookup_lt_Some in E. lia.
Qed.

(** X6: the [onChange] of the item rendered at [idx] replaces the
    layout of that entry by the reported one and keeps its file, its
    preview URL and its caption; the list keeps its length and every
    other entry. *)
Theorem onChange_updates_one (idx : nat) (next : Adapter.Layout)
    (prev : list PendingFile) (p : PendingFile) :
  prev !! idx = Some p ->
  exists l' q,
    onChange idx next prev = Some l'
    /\ length l' = length prev
    /\ l' !! idx = Some q
    /\ layout_of q = next
    /\ file q = file p /\ previewUrl q = previewUrl p
    /\ caption q = caption p
    /\ forall j, j <> idx -> l' !! j = prev !! j.
Proof.
  intros Hp. unfold onChange. rewrite Hp.
  exists (<[idx := merge p next]> prev), (merge p next).
  split; [reflexivity|]. split; [apply length_insert|].
  split; [apply list_lookup_insert_eq; eapply lookup_lt_Some; exact Hp|].
  split; [now destruct next|].
  repeat (split; [reflexivity|]).
  intros j Hj. now apply list_lookup_insert_ne.
Qed.

Lemma onChange_updates_one_witness :
  exists l' q,
    onChange 1 (Adapter.mkLayout (num 48) (num 32) (num 264) (num 176))
      (pending (page Sample.three)) = Some l'
    /\ length l' = 3%nat
    /\ l' !! 1%nat = Some q
    /\ layout_of q = Adapter.mkLayout (num 48) (num 32) (num 264) (num 176)
    /\ file q = Sample.b_png /\ previewUrl q = 2%nat
    /\ caption q = None
    /\ forall j, j <> 1%nat -> l' !! j = pending (page Sample.three) !! j.
Proof.
  exact (onChange_updates_one 1
           (Adapter.mkLayout (num 48) (num 32) (num 264) (num 176))
           (pending (page Sample.three)) (seeded 1 2 Sample.b_png) eq_refl).
Defined.

End pending_list_operations.

Section store_facts.
Import JS Browser Firebase Page.

Lemma save_item_grows p o r :
  objects r `prefix_of` objects (save_item p o r).1
  /\ documents r `prefix_of` documents (save_item p o r).1.
Proof.
  unfold save_item. destruct (upload o); [|easy].
  destruct (downloadURL o) as [u|]; [destruct (write o)|]; cbn;
    split; try reflexivity; now apply prefix_app_r.
Qed.

Lemma settle_remote t o s :
  settle t o s = s
  \/ exists p, remote (settle t o s) = (save_item p o (remote s)).1.
Proof.
  unfold settle. destruct (running s !! t) as [[cap [|p rest]]|]; auto.
  right. exists p. destruct (save_item p o (remote s)) as [r [|]];
    [destruct rest|]; reflexivity.
Qed.

Lemma user_event_remote e s :
  user_event e = true -> remote (step e s) = remote s.
Proof.
  destruct e as [files|idx|idx evs|idx evs|checked| |t o]; cbn [step];
    intros H; try discriminate.
  - apply onSelect_keeps.
  - apply removeOne_keeps.
  - destruct (pending (page s) !! idx); [apply change_keeps|reflexivity].
  - destruct (pending (page s) !! idx); [apply change_keeps|reflexivity].
  - reflexivity.
  - destruct (canSave (page s)); [|reflexivity].
    unfold start_save. now destruct (pending (page s)).
Qed.

Lemma step_store_grows e s :
  objects (remote s) `prefix_of` objects (remote (step e s))
  /\ documents (remote s) `prefix_of` documents (remote (step e s)).
Proof.
  destruct (user_event e) eqn:E.
  - now rewrite user_event_remote.
  - destruct e; try discriminate. cbn [step].
    destruct (settle_remote t o s) as [->|[p ->]]; [easy|].
    apply save_item_grows.
Qed.

(** X7: the page only ever adds to the two stores: over any run of the
    event loop, the objects and the documents present at the start are
    still there at the end, at the same places; and only the settling
    of a save's awaits changes the stores at all. *)
Theorem stores_only_grow (es : list Event) (s : System) :
  objects (remote s) `prefix_of` objects (remote (run es s))
  /\ documents (remote s) `prefix_of` documents (remote (run es s))
  /\ (Forall (fun e => user_event e = true) es ->
      remote (run es s) = remote s).
Proof.
  revert s. induction es as [|e es IH]; intros s; [easy|].
  rewrite run_cons. destruct (IH (step e s)) as (A & B & C).
  destruct (step_store_grows e s) as [A' B'].
  split; [now transitivity (objects (remote (step e s)))|].
  split; [now transitivity (documents (remote (step e s)))|].
  intros H. inversion H; subst.
  rewrite C by assumption. now apply user_event_remote.
Qed.

End store_facts.

Section save_in_the_loop.
Import JS Browser Firebase Page.

Lemma user_event_keeps_save e s task :
  user_event e = true ->
  running s = [task] -> isSaving (page s) = true ->
  running (step e s) = [task] /\ isSaving (page (step e s)) = true
  /\ teardown_pending (step e s) = teardown_pending s.
Proof.
  intros E Hrun Hbusy. rewrite step_keeps_teardown.
  destruct e as [files|idx|idx evs|idx evs|checked| |t o]; cbn [step];
    try discriminate.
  - destruct (onSelect_keeps files s) as (-> & _ & _ & _ & -> & _). easy.
  - destruct (removeOne_keeps idx s) as (-> & _ & _ & _ & ->). easy.
  - destruct (pending (page s) !! idx); [|easy].
    destruct (change_keeps idx (Adapter.drag_gesture (layout_of p) evs) s)
      as (-> & _ & _ & _ & _ & ->). easy.
  - destruct (pending (page s) !! idx); [|easy].
    destruct (change_keeps idx (Adapter.resize_gesture (layout_of p) evs) s)
      as (-> & _ & _ & _ & _ & ->). easy.
  - easy.
  - unfold canSave. rewrite Hbusy, andb_false_r. easy.
Qed.

Lemma user_events_keep_save es : forall s task,
  Forall (fun e => user_event e = true) es ->
  running s = [task] -> isSaving (page s) = true ->
  running (run es s) = [task] /\ isSaving (page (run es s)) = true
  /\ teardown_pending (run es s) = teardown_pending s
  /\ remote (run es s) = remote s.
Proof.
  induction es as [|e es IH]; intros s task Hes Hrun Hbusy; [easy|].
  inversion Hes; subst. rewrite run_cons.
  destruct (user_event_keeps_save e s task) as (A & B & C); try assumption.
  destruct (IH (step e s) task) as (A' & B' & C' & D'); try assumption.
  rewrite A', B', C', D', C, user_event_remote by assumption. easy.
Qed.

Lemma run_app es1 es2 s : run (es1 ++ es2) s = run es2 (run es1 s).
Proof. unfold run. apply fold_left_app. Qed.

Lemma settle_running o cap p rest s :
  running s = [{| captured := cap; todo := p :: rest |}] ->
  settle 0 o s
  = match save_item p o (remote s), rest with
    | (r', Fulfilled), _ :: _ =>
        {| page := page s; urls := urls s; remote := r';
           teardown_pending := teardown_pending s;
           running := [{| captured := cap; todo := rest |}] |}
    | (r', Fulfilled), [] =>
        {| page := set_isSaving false (set_pending [] (page s));
           urls := revoke_all cap (urls s); remote := r';
           teardown_pending := teardown_pending s; running := [] |}
    | (r', Rejected), _ =>
        {| page := set_isSaving false (page s); urls := urls s;
           remote := r'; teardown_pending := teardown_pending s;
           running := [] |}
    end.
Proof.
  intros H. destruct s as [pg b r td rn]. cbn in H. subst rn.
  apply settle_head.
Qed.

Lemma interleaved_save env cap (rest : list PendingFile) :
  forall p mids first s,
  running s = [{| captured := cap; todo := p :: rest |}] ->
  isSaving (page s) = true ->
  length mids = length (p :: rest) ->
  Forall (Forall (fun e => user_event e = true)) mids ->
  (forall k, (k < length (p :: rest))%nat ->
     succeeds (env (first + k)%nat) = true) ->
  let s' := run (interleaved env first mids) s in
  documents (remote s')
    = documents (remote s) ++ imap (fun k => doc_at env (first + k)) (p :: rest)
  /\ objects (remote s')
     = objects (remote s)
       ++ imap (fun k => object_at env (first + k)) (p :: rest)
  /\ pending (page s') = []
  /\ (exists pre, revoked (urls s') = pre ++ handles cap)
  /\ running s' = [] /\ isSaving (page s') = false.
Proof.
  induction rest as [|q rest IH]; intros p mids first s Hrun Hbusy Hlen Hmid Hok;
    cbn zeta.
  - destruct mids as [|mid [|? ?]]; try discriminate.
    apply Forall_cons in Hmid as [Hmid _].
    cbn [interleaved]. rewrite run_app, run_cons. cbn [run fold_left step].
    destruct (user_events_keep_save mid s _ Hmid Hrun Hbusy)
      as (Hr & _ & _ & Hrem).
    rewrite (settle_running _ _ _ _ _ Hr), Hrem, save_item_succeeds.
    2:{ specialize (Hok 0%nat). rewrite Nat.add_0_r in Hok. apply Hok.
        cbn. lia. }
    cbn [remote documents objects page pending urls running isSaving
         set_pending set_isSaving imap].
    rewrite Nat.add_0_r.
    repeat split. exists (revoked (urls (run mid s))).
    apply revoke_all_revoked.
  - destruct mids as [|mid mids]; [discriminate|].
    apply Forall_cons in Hmid as [Hmid Hmids].
    cbn [interleaved]. rewrite run_app, run_cons. cbn [step].
    destruct (user_events_keep_save mid s _ Hmid Hrun Hbusy)
      as (Hr & Hb & _ & Hrem).
    rewrite (settle_running _ _ _ _ _ Hr), Hrem, save_item_succeeds.
    2:{ specialize (Hok 0%nat). rewrite Nat.add_0_r in Hok. apply Hok.
        cbn. lia. }
    set (s1 := {| page := page (run mid s) |}).
    destruct (IH q mids (S first) s1) as (A & B & C & D & E & F).
    + reflexivity.
    + exact Hb.
    + cbn in Hlen |- *. lia.
    + exact Hmids.
    + intros k Hk. replace (S first + k)%nat with (first + S k)%nat by lia.
      apply Hok. cbn in Hk |- *. lia.
    + cbn zeta in A, B, C, D, E, F. rewrite A, B. subst s1.
      cbn [remote documents objects].
      rewrite (imap_succ (doc_at env)), (imap_succ (object_at env)).
      rewrite (imap_cons _ p), (imap_cons _ p), <- !app_assoc, Nat.add_0_r.
      repeat split; assumption.
Qed.

(** X9: a save works on the pending list as it was at the click.
    Whatever the user does while it runs, before the awaits of the
    first item settle and between those of any two items (select,
    remove, drag, resize, toggle snapping, click the disabled button),
    a save all of whose awaits succeed writes one document per entry
    of that list, in order and with the layout of that moment, ends by
    revoking the preview URLs of that list, and leaves the pending
    list empty: entries selected and layouts changed meanwhile are
    dropped unsaved. *)
Theorem save_writes_list_of_click (env : nat -> Outcome)
    (mids : list (list Event)) (s : System) :
  canSave (page s) = true -> running s = [] ->
  length mids = length (pending (page s)) ->
  Forall (Forall (fun e => user_event e = true)) mids ->
  (forall i, (i < length (pending (page s)))%nat -> succeeds (env i) = true) ->
  let ps := pending (page s) in
  let s' := run (ClickSave :: interleaved env 0 mids) s in
  documents (remote s') = documents (remote s) ++ imap (doc_at env) ps
  /\ objects (remote s') = objects (remote s) ++ imap (object_at env) ps
  /\ pending (page s') = []
  /\ (exists pre, revoked (urls s') = pre ++ handles ps)
  /\ running s' = [] /\ isSaving (page s') = false.
Proof.
  intros Hc Hrun Hlen Hmid Hok. cbn zeta.
  pose proof Hc as Hc'. apply canSave_true in Hc' as [Hne _].
  destruct (pending (page s)) as [|p ps] eqn:Eps; [congruence|].
  rewrite run_cons.
  assert (Hstart : running (step ClickSave s)
                   = [{| captured := p :: ps; todo := p :: ps |}]
                   /\ isSaving (page (step ClickSave s)) = true
                   /\ remote (step ClickSave s) = remote s).
  { cbn [step]. rewrite Hc. unfold start_save. rewrite Eps. cbn.
    now rewrite Hrun. }
  destruct Hstart as (Hr1 & Hb1 & Hrem1).
  destruct (interleaved_save env (p :: ps) ps p mids 0 (step ClickSave s)
              Hr1 Hb1 Hlen Hmid Hok) as (A & B & C & D & E & F).
  cbn zeta in A, B, C, D, E, F. rewrite Hrem1 in A, B.
  repeat split; assumption.
Qed.

Lemma save_writes_list_of_click_witness :
  let mids := [[Select [Sample.c_png];
                Drag 0 [Adapter.mkDrag (Some (num 8)) None]];
               [Remove 0; ClickSave];
               [Select [Sample.a_png]; SetSnap false]] in
  let s' := run (ClickSave :: interleaved Sample.ok 0 mids) Sample.three in
  map fileName (documents (remote s')) = ["a.png"; "b.png"; "c.png"]
  /\ map Firebase.x (documents (remote s')) = [num 0; num 16; num 32]
  /\ pending (page s') = []
  /\ running s' = [].
Proof.
  cbn zeta.
  destruct (save_writes_list_of_click Sample.ok
              [[Select [Sample.c_png];
                Drag 0 [Adapter.mkDrag (Some (num 8)) None]];
               [Remove 0; ClickSave];
               [Select [Sample.a_png]; SetSnap false]]
              Sample.three)
    as (A & _ & B & _ & C & _).
  - reflexivity.
  - reflexivity.
  - reflexivity.
  - repeat constructor.
  - intros i _. reflexivity.
  - split; [exact (eq_trans (f_equal (map fileName) A) eq_refl)|].
    split; [exact (eq_trans (f_equal (map Firebase.x) A) eq_refl)|].
    split; [exact B|exact C].
Defined.


(** X10: from a registry in which only created URLs were revoked, the
    preview URLs held by the pending entries are at all times distinct,
    created, and not revoked. *)
Theorem pending_urls_distinct_and_live (es : list Event) (b : Urls)
    (r : Remote) :
  Forall (fun u => (u < next_url b)%nat) (revoked b) ->
  let s := run es (mount b r) in
  NoDup (handles (pending (page s)))
  /\ forall p, p ∈ pending (page s) ->
       (previewUrl p < next_url (urls s))%nat
       /\ previewUrl p ∉ revoked (urls s).
Proof.
  intros Hb. cbn zeta.
  destruct (run_handles_ok es (mount b r) (mount_handles_ok b r Hb))
    as (Hnd & Hlt & Hnr & _).
  split; [exact Hnd|]. intros p Hp.
  assert (Hin : previewUrl p ∈ handles (pending (page (run es (mount b r)))))
    by (apply list_elem_of_fmap; eauto).
  rewrite Forall_forall in Hlt, Hnr. split; [now apply Hlt|now apply Hnr].
Qed.

Lemma pending_urls_distinct_and_live_witness :
  NoDup (handles (pending (page (run [Remove 1] Sample.three))))
  /\ forall p, p ∈ pending (page (run [Remove 1] Sample.three)) ->
       (previewUrl p < next_url (urls (run [Remove 1] Sample.three)))%nat
       /\ previewUrl p ∉ revoked (urls (run [Remove 1] Sample.three)).
Proof.
  apply (pending_urls_distinct_and_live
           [Select [Sample.a_png; Sample.b_png; Sample.c_png]; Remove 1]
           Sample.no_urls Sample.empty_remote).
  constructor.
Defined.

(** X11: in no state the page can reach does the cleanup of the
    teardown effect revoke anything: unmounting leaves the registry,
    and with it every preview URL still pending, as it was. *)
Theorem teardown_never_revokes (s : System) :
  reachable s ->
  unmount s = s
  /\ forall p, p ∈ pending (page s) ->
       count_occ Nat.eq_dec (revoked (urls (unmount s))) (previewUrl p)
       = count_occ Nat.eq_dec (revoked (urls s)) (previewUrl p).
Proof.
  intros H. pose proof (reachable_teardown s H) as E.
  assert (Eq : unmount s = s).
  { destruct s as [pg b r td rn]. cbn in E. subst td. reflexivity. }
  split; [exact Eq|]. intros p _. now rewrite Eq.
Qed.

Lemma teardown_never_revokes_witness :
  unmount Sample.three = Sample.three.
Proof.
  apply (teardown_never_revokes Sample.three).
  apply reachable_step, reachable_mount.
Defined.

End save_in_the_loop.

Section storage_keys.
Import JS Browser Firebase Page.

Lemma pretty_N_char_digit (x : N) : is_digit (pretty_N_char x) = true.
Proof.
  destruct x as [|p]; [reflexivity|].
  do 4 (destruct p as [p|p|]; try reflexivity).
Qed.

Lemma pretty_N_go_digits (x : N) : forall s,
  all_digits s = true -> all_digits (pretty_N_go x s) = true.
Proof.
  induction x as [x IH] using (well_founded_induction N.lt_wf_0).
  intros s Hs. destruct (decide (x = 0%N)) as [->|Hx].
  - now rewrite pretty_N_go_0.
  - rewrite pretty_N_go_step by lia. apply IH.
    + apply N.div_lt; lia.
    + cbn. now rewrite pretty_N_char_digit.
Qed.

Lemma pretty_N_digits (x : N) : all_digits (pretty x) = true.
Proof.
  unfold pretty, pretty_N. destruct (decide (x = 0%N)); [reflexivity|].
  now apply pretty_N_go_digits.
Qed.

Lemma digits_then_underscore (d1 : string) : forall d2 n1 n2,
  all_digits d1 = true -> all_digits d2 = true ->
  d1 +:+ "_" +:+ n1 = d2 +:+ "_" +:+ n2 -> d1 = d2 /\ n1 = n2.
Proof.
  induction d1 as [|c d1 IH]; intros [|c' d2] n1 n2 H1 H2 E.
  - cbn in E. inversion E. easy.
  - cbn in E, H2. inversion E; subst.
    apply andb_prop in H2 as [H2 _]. discriminate.
  - cbn in E, H1. inversion E; subst.
    apply andb_prop in H1 as [H1 _]. discriminate.
  - cbn in E, H1, H2. inversion E; subst.
    apply andb_prop in H1 as [_ H1]. apply andb_prop in H2 as [_ H2].
    destruct (IH d2 n1 n2 H1 H2) as [-> ->]; [assumption|easy].
Qed.

(** X12: two uploads are written under the same storage key exactly
    when they have the same file name and [Date.now()] gave the same
    millisecond; every key lies under "galleries/default/". *)
Theorem object_key_collision (p p' : PendingFile) (o o' : Outcome) :
  (key (object_of p o) = key (object_of p' o')
   <-> now o = now o' /\ name (file p) = name (file p'))
  /\ exists rest, key (object_of p o) = "galleries/default/" +:+ rest.
Proof.
  split; [|eexists; reflexivity].
  unfold object_of. cbn [key]. split.
  - intros E. apply (inj (String.app _)) in E.
    apply digits_then_underscore in E as [E ->];
      try apply pretty_N_digits.
    split; [|reflexivity]. now apply (inj pretty).
  - intros [-> ->]. reflexivity.
Qed.

End storage_keys.


Section app_facts.
Import App.

Lemma ensureFirebase_empty (c : Config) :
  ensureFirebase c ∅ = ({[DEFAULT := c]}, Some c).
Proof.
  unfold ensureFirebase, initializeApp, getApp.
  rewrite map_size_empty, bool_decide_eq_true_2 by reflexivity.
  rewrite lookup_empty, insert_empty, lookup_singleton_eq. reflexivity.
Qed.

Lemma ensureFirebase_nonempty (c : Config) (apps : gmap string Config) :
  apps ≠ ∅ -> ensureFirebase c apps = (apps, apps !! DEFAULT).
Proof.
  intros H. unfold ensureFirebase, getApp.
  rewrite bool_decide_eq_false_2; [reflexivity|].
  intros E. apply H. now apply map_size_empty_iff.
Qed.

(** X13: [ensureFirebase] looks for any app and then asks for the
    default one. On an empty registry it registers the configuration
    under the default name and hands that app out; on any other
    registry it registers nothing and hands out the default app, so
    however often the page renders there is one initialisation at
    most. Where the registry holds apps but no default one the call
    throws: the guard tests for some app, not for the default app. *)
Theorem ensureFirebase_default_app (c : Config)
    (apps : gmap string Config) :
  ensureFirebase c apps
  = (if decide (apps = ∅) then ({[DEFAULT := c]}, Some c)
     else (apps, apps !! DEFAULT))
  /\ (forall n, renders c (S n) ∅ = {[DEFAULT := c]})
  /\ (forall n, apps ≠ ∅ -> renders c n apps = apps)
  /\ (forall other : string, other ≠ DEFAULT ->
        ensureFirebase c {[other := c]} = ({[other := c]}, None)).
Proof.
  split; [|split; [|split]].
  - destruct (decide (apps = ∅)) as [->|H].
    + apply ensureFirebase_empty.
    + now apply ensureFirebase_nonempty.
  - induction n as [|n IH].
    + cbn. now rewrite ensureFirebase_empty.
    + change (renders c (S (S n)) ∅)
        with (ensureFirebase c (renders c (S n) ∅)).1.
      rewrite IH, ensureFirebase_nonempty; [reflexivity|].
      apply insert_non_empty.
  - intros n H. induction n as [|n IH]; [reflexivity|].
    change (renders c (S n) apps) with (ensureFirebase c (renders c n apps)).1.
    rewrite IH, ensureFirebase_nonempty; [reflexivity|exact H].
  - intros other H. rewrite ensureFirebase_nonempty.
    + now rewrite lookup_singleton_ne.
    + apply insert_non_empty.
Qed.

End app_facts.

Section markup_facts.
Import Markup.

Lemma join_cons_kept sep a xs :
  join sep (a :: xs)
  = match xs with [] => text a | _ => text a +:+ sep +:+ join sep xs end.
Proof. reflexivity. Qed.

Lemma join_kept_empty xs :
  Forall (fun a => Boolean a = true) xs ->
  join " " xs = EmptyString -> xs = [].
Proof.
  intros H E. destruct xs as [|a xs]; [reflexivity|].
  inversion H as [|? ? Ha _]; subst.
  destruct a as [[|c s]| | |]; try discriminate.
  rewrite join_cons_kept in E. destruct xs; discriminate.
Qed.

Lemma string_app_assoc (a b c : string) :
  (a +:+ b) +:+ c = a +:+ (b +:+ c).
Proof.
  induction a as [|ch a IH]; [reflexivity|].
  change (String ch ((a +:+ b) +:+ c) = String ch (a +:+ (b +:+ c))).
  now rewrite IH.
Qed.

Lemma join_cons_cons sep a b xs :
  join sep (a :: b :: xs) = text a +:+ sep +:+ join sep (b :: xs).
Proof. reflexivity. Qed.

Lemma join_kept_String a xs :
  Forall (fun a => Boolean a = true) (a :: xs) ->
  exists c s, join " " (a :: xs) = String c s.
Proof.
  intros H. inversion H as [|? ? Ha _]; subst.
  destruct a as [[|c s]| | |]; try discriminate.
  destruct xs; [|rewrite join_cons_cons]; cbn; eauto.
Qed.

Lemma beside_String c s c' s' :
  beside (String c s) (String c' s') = String c s +:+ " " +:+ String c' s'.
Proof. reflexivity. Qed.

Lemma join_app_kept xs : forall ys,
  Forall (fun a => Boolean a = true) xs ->
  Forall (fun a => Boolean a = true) ys ->
  join " " (xs ++ ys) = beside (join " " xs) (join " " ys).
Proof.
  induction xs as [|a xs IH]; intros ys Hx Hy; [reflexivity|].
  destruct (join_kept_String a xs Hx) as (c1 & s1 & E1).
  destruct ys as [|b ys].
  - rewrite app_nil_r, E1. reflexivity.
  - destruct (join_kept_String b ys Hy) as (c2 & s2 & E2).
    inversion Hx as [|? ? Ha Hxs]; subst.
    destruct xs as [|a' xs].
    + cbn [app]. rewrite join_cons_cons, E2.
      destruct a as [[|c s]| | |]; try discriminate. reflexivity.
    + specialize (IH (b :: ys) Hxs Hy).
      destruct (join_kept_String a' xs Hxs) as (c3 & s3 & E3).
      change ((a :: a' :: xs) ++ b :: ys)
        with (a :: a' :: (xs ++ b :: ys)).
      rewrite join_cons_cons.
      change (a' :: (xs ++ b :: ys)) with ((a' :: xs) ++ b :: ys).
      rewrite IH, E2, E3, beside_String.
      rewrite join_cons_cons, E3.
      destruct a as [[|c s]| | |]; try discriminate.
      cbn [text].
      change (String c s +:+ " " +:+ String c3 s3)
        with (String c (s +:+ " " +:+ String c3 s3)).
      rewrite beside_String.
      change (String c (s +:+ " " +:+ String c3 s3))
        with (String c s +:+ " " +:+ String c3 s3).
      now rewrite !string_app_assoc.
Qed.

Lemma filter_kept xs : Forall (fun a => Boolean a = true) (List.filter Boolean xs).
Proof.
  apply List.Forall_forall. intros a Ha. now apply List.filter_In in Ha.
Qed.

(** X14: [cls] drops every falsy argument (false, null, undefined and
    the empty string) and joins the rest with single spaces: the class
    string of two argument lists put together is the two class strings
    side by side, with one space between them only when both are not
    empty; and the result is empty exactly when no argument is
    truthy. *)
Theorem cls_joins_truthy (xs ys : list ClassArg) :
  cls (xs ++ ys) = beside (cls xs) (cls ys)
  /\ cls (List.filter Boolean xs) = cls xs
  /\ (cls xs = EmptyString <-> Forall (fun a => Boolean a = false) xs).
Proof.
  unfold cls. split; [|split].
  - rewrite List.filter_app. apply join_app_kept; apply filter_kept.
  - f_equal. induction xs as [|a xs IH]; [reflexivity|].
    cbn [List.filter]. destruct (Boolean a) eqn:E; [|exact IH].
    cbn [List.filter]. now rewrite E, IH.
  - split.
    + intros E. apply join_kept_empty in E; [|apply filter_kept].
      induction xs as [|a xs IH]; [constructor|].
      cbn [List.filter] in E. destruct (Boolean a) eqn:Ea; [discriminate|].
      constructor; [exact Ea|now apply IH].
    + intros H. induction H as [|a xs Ha _ IH]; [reflexivity|].
      cbn [List.filter]. now rewrite Ha.
Qed.

End markup_facts.

Section projection_facts.
Import JS Firebase Projection.

(** X15: the snapshot callback replaces the saved items by one item per
    document of the snapshot, in the snapshot's order, whatever the
    items were; an item has every field of the document's data, and the
    document's id under "id" unless the data has an "id" field of its
    own, which then wins. For a document written by [onSave] the saved
    canvas draws a box keyed by the document id, with the written
    width and height and the written url, translated by the written x
    and y (0 for a coordinate that is NaN). *)
Theorem snapshot_shows_written_documents :
  (forall snap items,
     length (on_snapshot snap items) = length snap
     /\ forall i d, snap !! i = Some d ->
          on_snapshot snap items !! i = Some (item_of d.1 d.2))
  /\ (forall id (data : gmap string Value) k v,
        data !! k = Some v -> item_of id data !! k = Some v)
  /\ (forall id (data : gmap string Value),
        data !! "id" = None -> item_of id data !! "id" = Some (VString id))
  /\ (forall id d,
        saved_box (item_of id (fields_of d))
        = {| box_key := Some (VString id);
             box_width := Some (VNumber (w d));
             box_height := Some (VNumber (h d));
             box_translate := (VNumber (or_zero (x d)),
                               VNumber (or_zero (y d)));
             box_src := Some (VString (url d)) |}).
Proof.
  split; [|split; [|split]].
  - intros snap items. unfold on_snapshot. split; [apply length_fmap|].
    intros i d Hd. now rewrite list_lookup_fmap, Hd.
  - intros id data k v H. unfold item_of. now apply lookup_union_Some_l.
  - intros id data H. unfold item_of.
    rewrite lookup_union_r by exact H. apply lookup_singleton_eq.
  - intros id d. unfold saved_box, item_of, fields_of.
    rewrite !lookup_union.
    repeat (rewrite ?lookup_insert_eq, ?lookup_insert_ne by discriminate).
    rewrite ?lookup_empty, ?lookup_singleton_eq, ?lookup_singleton_ne
      by discriminate.
    reflexivity.
Qed.

End projection_facts.

Section uploader_facts.
Import JS Browser Firebase Uploader.

Lemma uploader_select_loop_closed files : forall entries b,
  select_loop files entries b
  = (entries ++ imap (fun k f => measured (next_url b + 2 * k) f) files,
     {| next_url := next_url b + 2 * length files; revoked := revoked b |}).
Proof.
  induction files as [|f files IH]; intros entries b.
  - cbn. rewrite app_nil_r. destruct b as [n rv]; cbn. do 2 f_equal. lia.
  - cbn [select_loop].
    change (new_entry f b)
      with (measured (next_url b) f,
            {| next_url := S (S (next_url b)); revoked := revoked b |}).
    cbv beta iota.
    rewrite IH, imap_cons, <- app_assoc. cbn [app next_url revoked length].
    f_equal.
    + f_equal. f_equal.
      * f_equal. lia.
      * apply imap_ext. intros k g _. cbn. f_equal. lia.
    + f_equal. lia.
Qed.

(** X16: the Uploader's [onSelect] appends one entry per selected
    file, in order, after the entries already pending, each with a new
    object URL and the image's own width and height (none when the
    image cannot be read); it creates two object URLs per file and
    touches neither the stores nor the saving flag. *)
Theorem uploader_onSelect_appends (files : list File) (s : System) :
  pending (onSelect files s)
  = pending s ++ imap (fun k f => measured (next_url (urls s) + 2 * k) f) files
  /\ length (pending (onSelect files s))
     = (length (pending s) + length files)%nat
  /\ next_url (urls (onSelect files s))
     = (next_url (urls s) + 2 * length files)%nat
  /\ revoked (urls (onSelect files s)) = revoked (urls s)
  /\ documents (onSelect files s) = documents s
  /\ objects (onSelect files s) = objects s
  /\ isSaving (onSelect files s) = isSaving s
  /\ uploaded (onSelect files s) = uploaded s.
Proof.
  assert (E : pending (onSelect files s)
              = pending s
                ++ imap (fun k f => measured (next_url (urls s) + 2 * k) f) files).
  { unfold onSelect. destruct files as [|f files].
    - cbn. now rewrite app_nil_r.
    - now rewrite uploader_select_loop_closed. }
  split; [exact E|]. split; [now rewrite E, length_app, length_imap|].
  unfold onSelect. destruct files as [|f files].
  - cbn. repeat split. lia.
  - rewrite uploader_select_loop_closed. repeat split.
Qed.

Lemma uploader_save_loop_shape ps env : forall i objs docs,
  exists new,
    (save_loop ps env i objs docs).1.2 = docs ++ new
    /\ match (save_loop ps env i objs docs).2 with
       | Page.Fulfilled => Forall2 written_for ps new
       | Page.Rejected =>
           exists k, (k < length ps)%nat /\ Forall2 written_for (take k ps) new
       end.
Proof.
  induction ps as [|p ps IH]; intros i objs docs.
  - exists []. cbn. rewrite app_nil_r. split; [reflexivity|constructor].
  - cbn [save_loop]. unfold save_item.
    destruct (upload (env i));
      [|exists []; cbn; rewrite app_nil_r; split; [reflexivity|];
        exists 0%nat; split; [cbn; lia|constructor]].
    destruct (downloadURL (env i)) as [u|];
      [|exists []; cbn; rewrite app_nil_r; split; [reflexivity|];
        exists 0%nat; split; [cbn; lia|constructor]].
    destruct (write (env i));
      [|exists []; cbn; rewrite app_nil_r; split; [reflexivity|];
        exists 0%nat; split; [cbn; lia|constructor]].
    destruct (IH (S i) (objs ++ [object_of p (env i)])
                (docs ++ [doc_of p u])) as (new & E & H).
    exists (doc_of p u :: new). rewrite E, <- app_assoc.
    split; [reflexivity|].
    destruct (save_loop ps env (S i) _ _).2.
    + constructor; [repeat split|exact H].
    + destruct H as (k & Hk & H). exists (S k). split; [cbn; lia|].
      cbn [take]. constructor; [repeat split|exact H].
Qed.

Lemma uploader_revoke_all_revoked ps : forall b,
  revoked (revoke_all ps b) = revoked b ++ map previewUrl ps.
Proof.
  induction ps as [|p ps IH]; intros b; cbn.
  - now rewrite app_nil_r.
  - unfold revoke_all in IH. rewrite IH. cbn. now rewrite <- app_assoc.
Qed.

(** X17: the Uploader's [onSave] does nothing at all on an empty list.
    On a non-empty list it either fulfils, having written one document
    per entry, in order, with the entry's file name and the image's
    own width and height, emptied the list, revoked every preview URL
    and called [onUploaded] exactly once (when the component has one);
    or it rejects, having written documents for the entries before the
    failing one only, with the list and the registry as they were and
    [onUploaded] not called. In both cases the saving flag is down. *)
Theorem uploader_onSave_outcome (onUploaded : bool) (env : nat -> Outcome)
    (s : System) :
  let s' := (onSave onUploaded env s).1 in
  match pending s with
  | [] => onSave onUploaded env s = (s, Page.Fulfilled)
  | _ =>
      isSaving s' = false
      /\ exists new,
           documents s' = documents s ++ new
           /\ match (onSave onUploaded env s).2 with
              | Page.Fulfilled =>
                  Forall2 written_for (pending s) new
                  /\ pending s' = []
                  /\ revoked (urls s')
                     = revoked (urls s) ++ map previewUrl (pending s)
                  /\ uploaded s'
                     = if onUploaded then S (uploaded s) else uploaded s
              | Page.Rejected =>
                  (exists k, (k < length (pending s))%nat
                     /\ Forall2 written_for (take k (pending s)) new)
                  /\ pending s' = pending s
                  /\ urls s' = urls s
                  /\ uploaded s' = uploaded s
              end
  end.
Proof.
  cbn zeta. unfold onSave.
  destruct (pending s) as [|p0 ps0] eqn:Eps; [reflexivity|].
  rewrite <- Eps.
  destruct (uploader_save_loop_shape (pending s) env 0 (objects s) (documents s))
    as (new & E & H).
  destruct (save_loop (pending s) env 0 (objects s) (documents s))
    as [[objs docs] [|]]; cbn [fst snd] in *.
  - split; [reflexivity|]. exists new. split; [exact E|].
    split; [exact H|]. split; [reflexivity|]. split; [|reflexivity].
    apply uploader_revoke_all_revoked.
  - split; [reflexivity|]. exists new. split; [exact E|].
    split; [exact H|]. repeat split.
Qed.

End uploader_facts.

Section measuring_urls.
Import JS Browser Firebase Page.

Lemma urls_accounted_step nb old e s :
  urls_accounted nb old s -> urls_accounted nb old (step e s).
Proof.
  intros (Hn & (new & Hr & Hnew) & Hp & Hc).
  destruct e as [files|idx|idx evs|idx evs|checked| |t o]; cbn [step].
  - destruct (onSelect_urls files s) as [En Er].
    destruct (onSelect_keeps files s) as (_ & _ & _ & _ & Erun & _).
    unfold urls_accounted. rewrite onSelect_pending, En, Er, Erun.
    destruct Hn as [j Hj].
    split; [exists (j + length files)%nat; lia|].
    split; [exists new; easy|]. split; [|exact Hc].
    unfold handles. rewrite fmap_app. apply Forall_app. split; [exact Hp|].
    change (Forall (preview_like nb)
              (handles (imap (fun k f => seeded (length (pending (page s)) + k)
                                (next_url (urls s) + 2 * k) f) files))).
    rewrite handles_seeded. apply Forall_fmap, Forall_forall.
    intros k _. exists (j + k)%nat. cbn. lia.
  - unfold removeOne.
    destruct (pending (page s) !! idx) as [removed|] eqn:Ei;
      [|solve [repeat split; eauto]].
    assert (Eu : handles (pending (page s)) !! idx = Some (previewUrl removed)).
    { unfold handles. now rewrite list_lookup_fmap, Ei. }
    unfold urls_accounted.
    cbn [page urls running pending set_pending revokeObjectURL next_url revoked].
    split; [exact Hn|]. split; [|split; [|exact Hc]].
    + exists (new ++ [previewUrl removed]). rewrite Hr, <- app_assoc.
      split; [reflexivity|]. apply Forall_app. split; [exact Hnew|].
      constructor; [|constructor].
      exact (Forall_lookup_1 _ _ _ _ Hp Eu).
    + unfold handles. rewrite list_fmap_delete. now apply Forall_delete.
  - destruct (pending (page s) !! idx) as [p|] eqn:Ei;
      [|solve [repeat split; eauto]].
    unfold change, onChange. rewrite Ei. unfold urls_accounted.
    cbn [page urls running pending set_pending].
    rewrite (handles_insert_merge idx p _ _ Ei). repeat split; eauto.
  - destruct (pending (page s) !! idx) as [p|] eqn:Ei;
      [|solve [repeat split; eauto]].
    unfold change, onChange. rewrite Ei. unfold urls_accounted.
    cbn [page urls running pending set_pending].
    rewrite (handles_insert_merge idx p _ _ Ei). repeat split; eauto.
  - solve [repeat split; eauto].
  - destruct (canSave (page s)); [|solve [repeat split; eauto]].
    unfold start_save. destruct (pending (page s)) as [|p ps] eqn:Eps;
      [rewrite <- Eps in *; solve [repeat split; eauto]|].
    unfold urls_accounted. cbn [page urls running pending set_isSaving].
    rewrite Eps. split; [exact Hn|]. split; [eauto|]. split; [exact Hp|].
    apply Forall_app. split; [exact Hc|]. constructor; [exact Hp|constructor].
  - unfold settle.
    destruct (running s !! t) as [[cap [|p rest]]|] eqn:Et;
      try solve [repeat split; eauto].
    pose proof (Forall_lookup_1 _ _ _ _ Hc Et) as Hcap. cbn in Hcap.
    destruct (save_item p o (remote s)) as [r [|]].
    + destruct rest as [|q rest].
      * unfold urls_accounted.
        cbn [page urls running pending set_pending set_isSaving].
        rewrite revoke_all_next.
        split; [exact Hn|]. split; [|split; [constructor|]].
        -- exists (new ++ handles cap).
           rewrite revoke_all_revoked, Hr, <- app_assoc.
           split; [reflexivity|]. apply Forall_app. split; assumption.
        -- now apply Forall_delete.
      * unfold urls_accounted. cbn [page urls running].
        split; [exact Hn|]. split; [eauto|]. split; [exact Hp|].
        apply Forall_insert; [exact Hc|exact Hcap].
    + unfold urls_accounted. cbn [page urls running pending set_isSaving].
      split; [exact Hn|]. split; [eauto|]. split; [exact Hp|].
      now apply Forall_delete.
Qed.

(** X18: [onSelect] creates two object URLs per file: the preview URL,
    and right after it the one [readImageDims] loads the image
    through. The second one is never revoked: over any run of the page
    from a registry whose next URL is [nb], the URLs are created in
    such pairs, and every URL passed to [revokeObjectURL] is a preview
    URL (at an even distance from [nb]). *)
Theorem measuring_urls_never_revoked (es : list Event) (b : Urls)
    (r : Remote) :
  (forall pl entries f b0,
     previewUrl (new_entry pl entries f b0).1 = next_url b0
     /\ (createObjectURL (createObjectURL b0).2).1 = S (next_url b0)
     /\ next_url (new_entry pl entries f b0).2 = S (S (next_url b0)))
  /\ (exists n, next_url (urls (run es (mount b r)))
                = (next_url b + 2 * n)%nat)
  /\ exists new,
       revoked (urls (run es (mount b r))) = revoked b ++ new
       /\ forall u, u ∈ new -> exists j, u = (next_url b + 2 * j)%nat.
Proof.
  split; [intros; repeat split|].
  assert (H : urls_accounted (next_url b) (revoked b) (run es (mount b r))).
  { assert (H0 : urls_accounted (next_url b) (revoked b) (mount b r)).
    { split; [exists 0%nat; cbn; lia|].
      split; [exists []; cbn; now rewrite app_nil_r|].
      split; constructor. }
    revert H0. generalize (mount b r). induction es as [|e es IH];
      intros s H0; [exact H0|].
    rewrite run_cons. apply IH. now apply urls_accounted_step. }
  destruct H as (Hn & (new & Hr & Hnew) & _).
  split; [exact Hn|]. exists new. split; [exact Hr|].
  intros u Hu. rewrite Forall_forall in Hnew. exact (Hnew u Hu).
Qed.

End measuring_urls.

Section button_facts.
Import JS Browser Firebase Page Markup.

(** X19: the save button is drawn as disabled (faded, "not allowed"
    cursor) in exactly the states in which a click on it does nothing,
    that is while a save runs or the pending list is empty; otherwise
    it is drawn with the hover shadow and a click starts a save. *)
Theorem save_button_looks_as_it_acts (s : System) :
  (save_button_class (page s)
     = "px-4 py-2 rounded-2xl border shadow opacity-50 cursor-not-allowed"
   <-> step ClickSave s = s)
  /\ (save_button_class (page s)
        = "px-4 py-2 rounded-2xl border shadow hover:shadow-md"
      <-> isSaving (page (step ClickSave s)) = true
          /\ isSaving (page s) = false)
  /\ (step ClickSave s = s
      <-> isSaving (page s) = true \/ pending (page s) = []).
Proof.
  unfold save_button_class. cbn [step].
  destruct (canSave (page s)) eqn:Ec.
  - pose proof Ec as Ec'. apply canSave_true in Ec' as [Hne Hidle].
    assert (Hstart : isSaving (page (start_save s)) = true).
    { unfold start_save. destruct (pending (page s)); [congruence|reflexivity]. }
    assert (Hneq : start_save s <> s).
    { intros E. rewrite E in Hstart. congruence. }
    split; [|split].
    + split; [discriminate|intros E; contradiction].
    + split; [intros _; split; assumption|reflexivity].
    + split; [intros E; contradiction|].
      intros [H|H]; congruence.
  - assert (Hoff : isSaving (page s) = true \/ pending (page s) = []).
    { unfold canSave in Ec. apply andb_false_iff in Ec as [Ec|Ec].
      - right. apply bool_decide_eq_false in Ec.
        destruct (pending (page s)); [reflexivity|]. cbn in Ec. lia.
      - left. now apply negb_false_iff in Ec. }
    split; [|split].
    + split; reflexivity.
    + split; [discriminate|]. intros [H1 H2]. congruence.
    + split; [intros _; exact Hoff|reflexivity].
Qed.

End button_facts.
